(** * qdiary: the calendar diary of [main.cpp], its table and its handlers

    [main.cpp] is one class, [DiaryApp]: a calendar widget, a text box and
    three buttons over one SQLite table

      CREATE TABLE IF NOT EXISTS diary
        (id INTEGER PRIMARY KEY AUTOINCREMENT, date DATE, entry TEXT)

    The development below embeds
      - the part of [QDate] the handlers use (validity, the format
        [yyyy-MM-dd] in both directions),
      - the table and the five statements the handlers prepare,
      - the widgets' state the handlers read and write,
      - the handlers themselves, one definition per member function,
    and then states what the handlers guarantee about the table and about
    the calendar's highlighted days. *)

From Stdlib Require Import ZArith Lia Ascii String.
From stdpp Require Import base option list sorting gmap strings.

Local Open Scope Z_scope.

(** ** Dates *)

Module Date.

(** A [QDate] is either the null date [QDate()] or a day of the proleptic
    Gregorian calendar.  Qt never builds a date that is neither: the
    constructor [QDate(y, m, d)] yields the null date when the triple names
    no day, which is what [make] does. *)
Inductive QDate : Type :=
  | Null
  | YMD (y m d : Z).

#[global] Instance QDate_eq_dec : EqDecision QDate.
Proof. solve_decision. Defined.

#[global] Instance QDate_countable : Countable QDate.
Proof.
  refine (inj_countable'
            (fun q => match q with Null => None | YMD y m d => Some (y, m, d) end)
            (fun o => match o with None => Null | Some (y, m, d) => YMD y m d end) _).
  intros []; reflexivity.
Defined.

(** [QDate::isLeapYear]: there is no year 0, so the years before the common
    era are shifted by one before the Gregorian rule applies. *)
Definition isLeapYear (y : Z) : bool :=
  let y' := if y <? 1 then y + 1 else y in
  ((y' mod 4 =? 0) && negb (y' mod 100 =? 0)) || (y' mod 400 =? 0).

Definition daysInMonth (y m : Z) : Z :=
  if m =? 2 then (if isLeapYear y then 29 else 28)
  else if (m =? 4) || (m =? 6) || (m =? 9) || (m =? 11) then 30
  else 31.

(** [QDate::isValid(y, m, d)]. *)
Definition validYMD (y m d : Z) : bool :=
  negb (y =? 0) && (1 <=? m) && (m <=? 12) && (1 <=? d) && (d <=? daysInMonth y m).

Definition isValid (date : QDate) : bool :=
  match date with
  | Null => false
  | YMD y m d => validYMD y m d
  end.

Definition isNull (date : QDate) : bool := negb (isValid date).

(** The constructor [QDate(y, m, d)]. *)
Definition make (y m d : Z) : QDate :=
  if validYMD y m d then YMD y m d else Null.

Definition year (date : QDate) : Z :=
  match date with Null => 0 | YMD y _ _ => y end.

(** *** [toString("yyyy-MM-dd")]

    [yyyy] is the year as four digits, with a minus sign in front when the
    year is negative; [MM] and [dd] are two digits with a leading zero.  An
    invalid date prints as the empty string.  The calendar widget only hands
    out dates up to its maximum 9999-12-31, so four digits are enough. *)

Definition digitChar (n : Z) : ascii :=
  ascii_of_nat (Z.to_nat (48 + n mod 10)).

Definition zeroPad2 (n : Z) : string :=
  String (digitChar (n / 10)) (String (digitChar n) EmptyString).

Definition zeroPad4 (n : Z) : string :=
  String (digitChar (n / 1000)) (String (digitChar (n / 100)) (zeroPad2 n)).

Definition toString (date : QDate) : string :=
  match date with
  | Null => ""
  | YMD y m d =>
      if validYMD y m d then
        (if y <? 0 then "-" else "") +:+ zeroPad4 (Z.abs y)
          +:+ "-" +:+ zeroPad2 m +:+ "-" +:+ zeroPad2 d
      else ""
  end.

(** *** [QDate::fromString(s, "yyyy-MM-dd")]

    Four digits, a dash, two digits, a dash, two digits; the date they name
    when it is a valid one, the null date in every other case. *)

Definition digitValue (c : ascii) : option Z :=
  let n := Z.of_nat (nat_of_ascii c) in
  if (48 <=? n) && (n <=? 57) then Some (n - 48) else None.

Definition number (cs : list ascii) : option Z :=
  foldl (fun acc c => a ← acc; v ← digitValue c; Some (10 * a + v)) (Some 0) cs.

Definition isDash (c : ascii) : bool := bool_decide (c = "-"%char).

Definition fromString (s : string) : QDate :=
  match String.list_ascii_of_string s with
  | [y3; y2; y1; y0; s1; m1; m0; s2; d1; d0] =>
      if isDash s1 && isDash s2 then
        match number [y3; y2; y1; y0], number [m1; m0], number [d1; d0] with
        | Some y, Some m, Some d => make y m d
        | _, _, _ => Null
        end
      else Null
  | _ => Null
  end.

(** The dates the development speaks about: valid days of the common era
    with a four-digit year, 0001-01-01 to 9999-12-31. *)
Definition selectable (date : QDate) : Prop :=
  isValid date = true /\ 1 <= year date <= 9999.

#[global] Instance selectable_dec date : Decision (selectable date).
Proof. unfold selectable. apply _. Defined.

End Date.

Import Date.

(** ** The table [diary] and the statements run on it *)

Module Sql.

(** One row of [diary].  The handlers bind [QString]s to both [:date] and
    [:entry]; a string that is not a number literal is stored as text also in
    the column declared [DATE], and [date = :date] compares text with text,
    byte for byte. *)
Record Row : Type := mkRow {
  id : Z;
  date : string;
  entry : string
}.

#[global] Instance Row_eq_dec : EqDecision Row.
Proof. solve_decision. Defined.

(** The table: its rows in rowid order, which is the order a scan without
    [ORDER BY] visits them, and the largest rowid ever handed out, which
    [AUTOINCREMENT] keeps so that no rowid is used twice. *)
Record Table : Type := mkTable {
  rows : list Row;
  sequence : Z
}.

Definition empty : Table := {| rows := []; sequence := 0 |}.

(** The largest rowid, 2^63 - 1.  Once it has been used an [AUTOINCREMENT]
    table takes no further row. *)
Definition MAX_ROWID : Z := 9223372036854775807.

(** The five statements of [main.cpp] with their bound values. *)
Inductive Statement : Type :=
  | SelectEntry (dateString : string)
      (* SELECT entry FROM diary WHERE date = :date *)
  | Insert (dateString entryText : string)
      (* INSERT INTO diary (date, entry) VALUES (:date, :entry) *)
  | Update (updatedEntryText dateString : string)
      (* UPDATE diary SET entry = :entry WHERE date = :date *)
  | Delete (dateString : string)
      (* DELETE FROM diary WHERE date = :date *)
  | SelectDate.
      (* SELECT date FROM diary *)

(** What a [QSqlQuery] holds after [exec]: whether [exec] returned true,
    the result set (every statement here selects at most one column) and
    the text of [lastError]. *)
Record QSqlQuery : Type := mkQuery {
  active : bool;
  result : list string;
  lastError : string
}.

(** What the storage layer does to one statement: [None] lets it run,
    [Some msg] makes it fail with that message (no such table, disk I/O
    error, database locked, ...). *)
Definition Fault : Type := option string.

Definition failed (msg : string) : QSqlQuery :=
  {| active := false; result := []; lastError := msg |}.

Definition completed (res : list string) : QSqlQuery :=
  {| active := true; result := res; lastError := "" |}.

Definition matching (dateString : string) (tbl : Table) : list Row :=
  filter (fun r => date r = dateString) (rows tbl).

Definition setEntry (text : string) (r : Row) : Row :=
  {| id := id r; date := date r; entry := text |}.

(** [query.exec()].  A statement either takes effect as a whole or fails
    and leaves the table as it was. *)
Definition exec (fault : Fault) (stmt : Statement) (tbl : Table)
  : Table * QSqlQuery :=
  match fault with
  | Some msg => (tbl, failed msg)
  | None =>
      match stmt with
      | SelectEntry dateString =>
          (tbl, completed (entry <$> matching dateString tbl))
      | Insert dateString entryText =>
          if MAX_ROWID <=? sequence tbl
          then (tbl, failed "database or disk is full")
          else
            let rowid := sequence tbl + 1 in
            ({| rows := rows tbl ++ [mkRow rowid dateString entryText];
                sequence := rowid |}, completed [])
      | Update updatedEntryText dateString =>
          ({| rows := (fun r => if decide (date r = dateString)
                                then setEntry updatedEntryText r else r)
                        <$> rows tbl;
              sequence := sequence tbl |}, completed [])
      | Delete dateString =>
          ({| rows := filter (fun r => date r <> dateString) (rows tbl);
              sequence := sequence tbl |}, completed [])
      | SelectDate =>
          (tbl, completed (date <$> rows tbl))
      end
  end.

(** [query.next()] right after [exec]: the first record of the result. *)
Definition next (query : QSqlQuery) : option string :=
  if active query then head (result query) else None.

Definition succeeds (fault : Fault) (stmt : Statement) (tbl : Table) : Prop :=
  active (exec fault stmt tbl).2 = true.

#[global] Instance succeeds_dec fault stmt tbl : Decision (succeeds fault stmt tbl).
Proof. unfold succeeds. apply _. Defined.

End Sql.

Import Sql.

(** ** The store as the specification names it *)

(** [get(date)]: the text [showEntry] finds for the date, or nothing. *)
Definition get (date : QDate) (tbl : Table) : option string :=
  next (exec None (SelectEntry (toString date)) tbl).2.

(** [listDatesWithEntries()]: the dates [highlightDaysWithEntries] reads
    back from the table. *)
Definition listDatesWithEntries (tbl : Table) : list QDate :=
  fromString <$> result (exec None SelectDate tbl).2.

(** A date has an entry when some row carries its date string. *)
Definition hasEntry (date : QDate) (tbl : Table) : Prop :=
  exists r, r ∈ rows tbl /\ Sql.date r = toString date.

(** At most one row per date string. *)
Definition oneRowPerDate (tbl : Table) : Prop :=
  NoDup (Sql.date <$> rows tbl).

(** ** The widgets *)

Inductive Brush : Type := NoBrush | green.

#[global] Instance Brush_eq_dec : EqDecision Brush.
Proof. solve_decision. Defined.

Record QTextCharFormat : Type := mkFormat { background : Brush }.

#[global] Instance QTextCharFormat_eq_dec : EqDecision QTextCharFormat.
Proof. solve_decision. Defined.

(** The calendar: the selected date and the per-date text formats
    ([QMap<QDate, QTextCharFormat>] inside the widget). *)
Record QCalendarWidget : Type := mkCalendar {
  selectedDate : QDate;
  dateTextFormats : gmap QDate QTextCharFormat
}.

(** [QCalendarWidget::setDateTextFormat]: a null date clears every format,
    any other date gets the format. *)
Definition setDateTextFormat (date : QDate) (format : QTextCharFormat)
    (w : QCalendarWidget) : QCalendarWidget :=
  {| selectedDate := selectedDate w;
     dateTextFormats := if isNull date then ∅
                        else <[date := format]> (dateTextFormats w) |}.

(** The days drawn on a green background. *)
Definition highlighted (w : QCalendarWidget) : gset QDate :=
  dom (filter (fun kv => background kv.2 = green) (dateTextFormats w)).

Inductive ActivationReason : Type := Unknown | Context | DoubleClick | Trigger | MiddleClick.

#[global] Instance ActivationReason_eq_dec : EqDecision ActivationReason.
Proof. solve_decision. Defined.

Inductive StandardButton : Type := Yes | No.

(** ** [DiaryApp] *)

(** The state the handlers work on: the table behind the default
    connection, the calendar, the plain text of [entryTextEdit], whether the
    window is shown, and the lines written to [qDebug()], oldest first, each
    line as the items streamed into it. *)
Record DiaryApp : Type := mkApp {
  diary : Table;
  calendarWidget : QCalendarWidget;
  entryTextEdit : string;
  visible : bool;
  debug : list (list string)
}.

Definition setDiary (tbl : Table) (app : DiaryApp) : DiaryApp :=
  mkApp tbl (calendarWidget app) (entryTextEdit app) (visible app) (debug app).

Definition setCalendar (w : QCalendarWidget) (app : DiaryApp) : DiaryApp :=
  mkApp (diary app) w (entryTextEdit app) (visible app) (debug app).

Definition setPlainText (text : string) (app : DiaryApp) : DiaryApp :=
  mkApp (diary app) (calendarWidget app) text (visible app) (debug app).

Definition setVisible (v : bool) (app : DiaryApp) : DiaryApp :=
  mkApp (diary app) (calendarWidget app) (entryTextEdit app) v (debug app).

Definition qDebug (line : list string) (app : DiaryApp) : DiaryApp :=
  mkApp (diary app) (calendarWidget app) (entryTextEdit app) (visible app)
        (debug app ++ [line]).

Definition defaultFormat : QTextCharFormat := {| background := NoBrush |}.
Definition entryFormat : QTextCharFormat := {| background := green |}.

(** [DiaryApp::highlightDaysWithEntries] *)
Definition highlightDaysWithEntries (fault : Fault) (app : DiaryApp) : DiaryApp :=
  (* Reset all date text formats *)
  let w0 := setDateTextFormat Null defaultFormat (calendarWidget app) in
  (* Highlight days with entries as green *)
  let '(tbl, query) := exec fault SelectDate (diary app) in
  let w := foldl (fun w dateString =>
                    let date := fromString dateString in
                    setDateTextFormat date entryFormat w)
                 w0 (result query) in
  setCalendar w (setDiary tbl app).

(** [DiaryApp::showEntry] *)
Definition showEntry (fault : Fault) (date : QDate) (app : DiaryApp) : DiaryApp :=
  let dateString := toString date in
  let '(tbl, query) := exec fault (SelectEntry dateString) (diary app) in
  match next query with
  | Some entry => setPlainText entry (setDiary tbl app)
  | None => setPlainText "" (setDiary tbl app)
  end.

(** [DiaryApp::toggleWindow] *)
Definition toggleWindow (reason : ActivationReason) (app : DiaryApp) : DiaryApp :=
  if decide (reason = DoubleClick)
  then (if visible app then setVisible false app else setVisible true app)
  else app.

(** [DiaryApp::addEntry] *)
Definition addEntry (fault refresh : Fault) (app : DiaryApp) : DiaryApp :=
  let currentDate := selectedDate (calendarWidget app) in
  let dateString := toString currentDate in
  let entryText := entryTextEdit app in
  let '(tbl, query) := exec fault (Insert dateString entryText) (diary app) in
  if negb (active query)
  then qDebug ["Error inserting diary entry:"; lastError query] (setDiary tbl app)
  else
    highlightDaysWithEntries refresh
      (qDebug ["Diary entry added successfully for"; dateString] (setDiary tbl app)).

(** [DiaryApp::updateEntry] *)
Definition updateEntry (fault refresh : Fault) (app : DiaryApp) : DiaryApp :=
  let currentDate := selectedDate (calendarWidget app) in
  let dateString := toString currentDate in
  let updatedEntryText := entryTextEdit app in
  let '(tbl, query) := exec fault (Update updatedEntryText dateString) (diary app) in
  if negb (active query)
  then qDebug ["Error updating diary entry:"; lastError query] (setDiary tbl app)
  else
    highlightDaysWithEntries refresh
      (qDebug ["Diary entry updated successfully for"; dateString] (setDiary tbl app)).

(** [DiaryApp::removeEntry] *)
Definition removeEntry (fault refresh : Fault) (app : DiaryApp) : DiaryApp :=
  let currentDate := selectedDate (calendarWidget app) in
  let dateString := toString currentDate in
  let '(tbl, query) := exec fault (Delete dateString) (diary app) in
  if negb (active query)
  then qDebug ["Error removing diary entry:"; lastError query] (setDiary tbl app)
  else
    highlightDaysWithEntries refresh
      (qDebug ["Diary entry removed successfully for"; dateString] (setDiary tbl app)).

(** [DiaryApp::confirmRemoveEntry]; [reply] is the button the user presses
    in the message box. *)
Definition confirmRemoveEntry (reply : StandardButton) (fault refresh : Fault)
    (app : DiaryApp) : DiaryApp :=
  match reply with
  | Yes => removeEntry fault refresh app
  | No => app
  end.

(** The constructor.  [opened] is what [db.open()] returns; when it is false
    the constructor returns before any widget exists or any signal is
    connected, and no handler can ever run: there is no application state.
    [file] is the table found in [diary.db], or nothing when the file is new
    and [CREATE TABLE IF NOT EXISTS] makes an empty one; [today] is the date
    the new calendar starts on. *)
Definition DiaryApp_new (opened : bool) (file : option Table) (today : QDate)
    (refresh : Fault) : option DiaryApp :=
  if negb opened then None
  else
    Some (highlightDaysWithEntries refresh
            {| diary := default Sql.empty file;
               calendarWidget := {| selectedDate := today; dateTextFormats := ∅ |};
               entryTextEdit := "";
               visible := false;
               debug := [] |}).

(** [main]: build the window and show it. *)
Definition main (opened : bool) (file : option Table) (today : QDate)
    (refresh : Fault) : option DiaryApp :=
  setVisible true <$> DiaryApp_new opened file today refresh.

(** What the user does to the widgets without a handler of [DiaryApp]
    running: picking a day in the calendar, typing in the text box, and
    "Show" in the tray menu, which is connected to [QWidget::show]. *)
Definition pickDate (date : QDate) (app : DiaryApp) : DiaryApp :=
  setCalendar {| selectedDate := date;
                 dateTextFormats := dateTextFormats (calendarWidget app) |} app.

Definition typeText (text : string) (app : DiaryApp) : DiaryApp :=
  setPlainText text app.

Definition showAction (app : DiaryApp) : DiaryApp :=
  setVisible true app.

(** The states the application can be in: it starts on a new file or on the
    table an earlier run left behind, and then moves by user actions, every
    statement meeting whatever the storage layer does to it.  The calendar
    offers selectable dates; the years before the common era, which the
    widget can be scrolled back to, are left out, since how a negative year
    is read back by [fromString] depends on the version of Qt.  [addAllowed]
    says in which states the user presses "Add Entry"; [reachable] lets the
    user press it anywhere. *)
Inductive reachableWhen (addAllowed : DiaryApp -> Prop) : DiaryApp -> Prop :=
  | reach_new today refresh app :
      selectable today ->
      main true None today refresh = Some app ->
      reachableWhen addAllowed app
  | reach_again old today refresh app :
      reachableWhen addAllowed old -> selectable today ->
      main true (Some (diary old)) today refresh = Some app ->
      reachableWhen addAllowed app
  | reach_pick date app :
      reachableWhen addAllowed app -> selectable date ->
      reachableWhen addAllowed (pickDate date app)
  | reach_type text app :
      reachableWhen addAllowed app -> reachableWhen addAllowed (typeText text app)
  | reach_show fault date app :
      reachableWhen addAllowed app -> selectable date ->
      reachableWhen addAllowed (showEntry fault date app)
  | reach_toggle reason app :
      reachableWhen addAllowed app -> reachableWhen addAllowed (toggleWindow reason app)
  | reach_tray_show app :
      reachableWhen addAllowed app -> reachableWhen addAllowed (showAction app)
  | reach_add fault refresh app :
      reachableWhen addAllowed app -> addAllowed app ->
      reachableWhen addAllowed (addEntry fault refresh app)
  | reach_update fault refresh app :
      reachableWhen addAllowed app ->
      reachableWhen addAllowed (updateEntry fault refresh app)
  | reach_remove reply fault refresh app :
      reachableWhen addAllowed app ->
      reachableWhen addAllowed (confirmRemoveEntry reply fault refresh app).

Definition reachable : DiaryApp -> Prop := reachableWhen (fun _ => True).

(** The user who presses "Add Entry" only on a date that has no entry. *)
Definition addsOncePerDate (app : DiaryApp) : Prop :=
  ~ hasEntry (selectedDate (calendarWidget app)) (diary app).

(** The table's own invariant: no rowid occurs twice and none passes the
    recorded sequence. *)
Definition rowidsFresh (tbl : Table) : Prop :=
  NoDup (id <$> rows tbl) /\ 0 <= sequence tbl /\
  forall r, r ∈ rows tbl -> 0 < id r <= sequence tbl.

(** Every date string in the table was written from a selectable date. *)
Definition datesWritten (tbl : Table) : Prop :=
  forall r, r ∈ rows tbl -> exists d, selectable d /\ Sql.date r = toString d.

(** What holds of every state the application reaches (see
    [reachable_invariant]). *)
Definition invariant (app : DiaryApp) : Prop :=
  selectable (selectedDate (calendarWidget app)) /\
  datesWritten (diary app) /\
  rowidsFresh (diary app).

(** Rowids grow along the rows: a row further down was inserted later. *)
Definition rowidsAscend (tbl : Table) : Prop :=
  StronglySorted Z.lt (id <$> rows tbl).

(** ** Sample states *)

Definition march1 : QDate := YMD 2024 3 1.
Definition march2 : QDate := YMD 2024 3 2.

(** The application right after its first start on 2024-03-01. *)
Definition started : DiaryApp :=
  {| diary := Sql.empty;
     calendarWidget := {| selectedDate := march1; dateTextFormats := ∅ |};
     entryTextEdit := "";
     visible := true;
     debug := [] |}.

(** "Hello" typed and added on 2024-03-01. *)
Definition withHello : DiaryApp := addEntry None None (typeText "Hello" started).

(** "Again" typed and added on the same day. *)
Definition withTwo : DiaryApp := addEntry None None (typeText "Again" withHello).

(** * Properties *)

Example toString_2024_03_01 : toString (YMD 2024 3 1) = "2024-03-01".
Proof. reflexivity. Qed.

Example fromString_2024_03_01 : fromString "2024-03-01" = YMD 2024 3 1.
Proof. reflexivity. Qed.

Example fromString_bad_day : fromString "2023-02-29" = Null.
Proof. reflexivity. Qed.

(** The scenarios of the specification, run on the sample states. *)

Example scenario_add :
  get march1 (diary withHello) = Some "Hello" /\
  listDatesWithEntries (diary withHello) = [march1] /\
  debug withHello = [["Diary entry added successfully for"; "2024-03-01"]].
Proof. repeat split; reflexivity. Qed.

Example scenario_update_elsewhere :
  let app := updateEntry None None (typeText "X" (pickDate march2 started)) in
  rows (diary app) = [] /\ get march2 (diary app) = None.
Proof. split; reflexivity. Qed.

Example scenario_remove :
  let app := confirmRemoveEntry Yes None None withHello in
  get march1 (diary app) = None /\ listDatesWithEntries (diary app) = [].
Proof. split; reflexivity. Qed.

Example scenario_decline_remove :
  confirmRemoveEntry No None None withHello = withHello.
Proof. reflexivity. Qed.

Example scenario_two_adds :
  rows (diary withTwo) =
    [mkRow 1 "2024-03-01" "Hello"; mkRow 2 "2024-03-01" "Again"] /\
  entryTextEdit (showEntry None march1 withTwo) = "Hello".
Proof. split; reflexivity. Qed.

(** ** The date format *)

Section DateFormat.

Lemma digitValue_digitChar n : digitValue (digitChar n) = Some (n mod 10).
Proof.
  unfold digitChar.
  assert (H : 0 <= n mod 10 < 10) by (apply Z.mod_pos_bound; lia).
  set (k := n mod 10) in *. clearbody k.
  assert (Hk : k = 0 \/ k = 1 \/ k = 2 \/ k = 3 \/ k = 4 \/
               k = 5 \/ k = 6 \/ k = 7 \/ k = 8 \/ k = 9) by lia.
  repeat destruct Hk as [-> | Hk]; try subst k; reflexivity.
Qed.

Lemma four_digits y :
  0 <= y <= 9999 ->
  10 * (10 * (10 * (10 * 0 + (y / 1000) mod 10) + (y / 100) mod 10)
        + (y / 10) mod 10) + y mod 10 = y.
Proof. intros. Z.to_euclidean_division_equations. lia. Qed.

Lemma two_digits n :
  0 <= n <= 99 -> 10 * (10 * 0 + (n / 10) mod 10) + n mod 10 = n.
Proof. intros. Z.to_euclidean_division_equations. lia. Qed.

Lemma validYMD_bounds y m d :
  validYMD y m d = true -> y <> 0 /\ 1 <= m <= 12 /\ 1 <= d <= 31.
Proof.
  unfold validYMD, daysInMonth. intros H.
  repeat (apply andb_true_iff in H; destruct H as [H ?]).
  apply negb_true_iff, Z.eqb_neq in H.
  repeat case_match; lia.
Qed.

(** Reading back what [toString] wrote gives the date again. *)
Lemma fromString_toString date :
  selectable date -> fromString (toString date) = date.
Proof.
  intros [Hv [Hlo Hhi]]. destruct date as [|y m d]; [discriminate|].
  cbn in Hv, Hlo, Hhi. cbn [toString]. rewrite Hv.
  destruct (Z.ltb_spec y 0); [lia|]. rewrite Z.abs_eq by lia.
  pose proof (validYMD_bounds _ _ _ Hv) as (_ & Hm & Hd).
  unfold fromString, zeroPad4, zeroPad2.
  lazy [String.append list_ascii_of_string isDash andb].
  rewrite !bool_decide_eq_true_2 by reflexivity.
  unfold number; cbn [foldl]. rewrite !digitValue_digitChar.
  cbn [mbind option_bind].
  rewrite four_digits, !two_digits by lia.
  unfold make. now rewrite Hv.
Qed.

Lemma toString_inj d d' :
  selectable d -> selectable d' -> toString d = toString d' -> d = d'.
Proof.
  intros Hd Hd' E.
  rewrite <- (fromString_toString d Hd), <- (fromString_toString d' Hd').
  now rewrite E.
Qed.

Lemma selectable_not_null date : selectable date -> isNull date = false.
Proof. intros [Hv _]. unfold isNull. now rewrite Hv. Qed.

End DateFormat.

(** ** The statements *)

Section Statements.

Implicit Types (tbl : Table) (ds text : string) (r : Row).

Lemma exec_fault msg stmt tbl : exec (Some msg) stmt tbl = (tbl, failed msg).
Proof. reflexivity. Qed.

Lemma succeeds_no_fault fault stmt tbl : succeeds fault stmt tbl -> fault = None.
Proof. destruct fault; [discriminate | reflexivity]. Qed.

(** A statement that does not succeed leaves the table alone. *)
Lemma exec_failure fault stmt tbl :
  ~ succeeds fault stmt tbl ->
  exists msg, exec fault stmt tbl = (tbl, failed msg).
Proof.
  unfold succeeds. destruct fault as [msg|]; [eauto|].
  destruct stmt; cbn; try (intros []; reflexivity).
  case_match; cbn; [eauto | intros []; reflexivity].
Qed.

Lemma succeeds_insert ds text tbl :
  succeeds None (Insert ds text) tbl <-> sequence tbl < MAX_ROWID.
Proof.
  unfold succeeds. cbn. destruct (Z.leb_spec MAX_ROWID (sequence tbl)); cbn.
  - split; [discriminate | lia].
  - split; [lia | reflexivity].
Qed.

Lemma exec_insert ds text tbl :
  succeeds None (Insert ds text) tbl ->
  (exec None (Insert ds text) tbl).1 =
    {| rows := rows tbl ++ [mkRow (sequence tbl + 1) ds text];
       sequence := sequence tbl + 1 |}.
Proof.
  intros H%succeeds_insert. cbn.
  destruct (Z.leb_spec MAX_ROWID (sequence tbl)); [lia | reflexivity].
Qed.

Lemma get_matching date tbl :
  get date tbl = entry <$> head (matching (toString date) tbl).
Proof.
  unfold get, next. cbn. now destruct (matching (toString date) tbl).
Qed.

Lemma matching_nil ds tbl :
  matching ds tbl = [] <-> forall r, r ∈ rows tbl -> date r <> ds.
Proof.
  unfold matching. split.
  - intros E r Hr Hd.
    assert (r ∈ filter (fun r => date r = ds) (rows tbl)) as Hin
      by (apply list_elem_of_filter; auto).
    rewrite E in Hin. inversion Hin.
  - intros H. induction (rows tbl) as [|r l IH]; [reflexivity|].
    rewrite filter_cons. destruct (decide (date r = ds)) as [E|_].
    + exfalso. apply (H r); [left | exact E].
    + apply IH. intros r' Hr'. apply H. now right.
Qed.

Lemma get_None date tbl : get date tbl = None <-> ~ hasEntry date tbl.
Proof.
  rewrite get_matching. unfold hasEntry. split.
  - intros E [r [Hr Hd]].
    destruct (matching (toString date) tbl) eqn:M; [|discriminate].
    exact (proj1 (matching_nil _ _) M r Hr Hd).
  - intros H. replace (matching (toString date) tbl) with (@nil Row); [reflexivity|].
    symmetry. apply matching_nil. intros r Hr Hd. apply H. eauto.
Qed.

Lemma matching_app ds l l' s s' :
  matching ds {| rows := l ++ l'; sequence := s |} =
  matching ds {| rows := l; sequence := s' |}
    ++ matching ds {| rows := l'; sequence := s' |}.
Proof. unfold matching. cbn. apply filter_app. Qed.

End Statements.

(** ** What a statement keeps *)

Section TableInvariants.

Implicit Types (tbl : Table) (ds text : string) (r : Row).

Lemma rowidsFresh_empty : rowidsFresh Sql.empty.
Proof. split; [constructor | split; [done | intros r Hr; inversion Hr]]. Qed.

Lemma exec_rowidsFresh fault stmt tbl :
  rowidsFresh tbl -> rowidsFresh (exec fault stmt tbl).1.
Proof.
  intros H. pose proof H as (Hnd & Hseq & Hle). destruct fault as [msg|]; [exact H|].
  destruct stmt as [ds | ds text | text ds | ds | ]; cbn [exec]; try exact H.
  - (* INSERT *)
    case_match; [exact H|]. unfold rowidsFresh. cbn [fst rows sequence]. split; [|split; [lia|]].
    + rewrite fmap_app. apply NoDup_app. split; [exact Hnd|]. split.
      * intros x Hx Hx'. apply list_elem_of_fmap in Hx as [r [-> Hr]].
        apply list_elem_of_singleton in Hx'. cbn in Hx'.
        specialize (Hle r Hr). lia.
      * cbn. apply NoDup_singleton.
    + intros r [Hr | Hr%list_elem_of_singleton]%elem_of_app.
      * specialize (Hle r Hr). lia.
      * subst r. cbn. lia.
  - (* UPDATE *)
    unfold rowidsFresh. cbn [fst rows sequence]. split; [|split; [lia|]].
    + rewrite <- list_fmap_compose.
      erewrite list_fmap_ext; [exact Hnd|]. intros i r _. cbn. now case_decide.
    + intros r (r0 & -> & Hr0)%list_elem_of_fmap. specialize (Hle r0 Hr0).
      now case_decide.
  - (* DELETE *)
    unfold rowidsFresh. cbn [fst rows sequence]. split; [|split; [lia|]].
    + eapply sublist_NoDup; [exact Hnd|]. apply fmap_sublist, sublist_filter.
    + intros r [_ Hr]%list_elem_of_filter. auto.
Qed.

Lemma datesWritten_empty : datesWritten Sql.empty.
Proof. intros r Hr. inversion Hr. Qed.

Lemma exec_datesWritten fault stmt tbl :
  datesWritten tbl ->
  match stmt with
  | Insert ds _ => exists d, selectable d /\ ds = toString d
  | _ => True
  end ->
  datesWritten (exec fault stmt tbl).1.
Proof.
  intros Hw Hs. destruct fault as [msg|]; [exact Hw|].
  destruct stmt as [ds | ds text | text ds | ds | ]; cbn [exec]; try exact Hw.
  - case_match; [exact Hw|]. 
    intros r [Hr | Hr%list_elem_of_singleton]%elem_of_app; [auto|].
    subst r. exact Hs.
  - intros r (r0 & -> & Hr0)%list_elem_of_fmap.
    destruct (Hw r0 Hr0) as (d & Hd & E). exists d. split; [exact Hd|].
    now case_decide.
  - intros r [_ Hr]%list_elem_of_filter. auto.
Qed.

(** Only [INSERT], [UPDATE] and [DELETE] write. *)
Lemma exec_select_entry fault ds tbl : (exec fault (SelectEntry ds) tbl).1 = tbl.
Proof. now destruct fault. Qed.

Lemma exec_select_date fault tbl : (exec fault SelectDate tbl).1 = tbl.
Proof. now destruct fault. Qed.

End TableInvariants.

(** ** The refresh of the calendar *)

Section Highlighting.

Implicit Types (app : DiaryApp) (refresh : Fault) (l : list string)
               (m : gmap QDate QTextCharFormat).

(** The loop of [highlightDaysWithEntries] seen on the format map alone. *)
Lemma marks_fold l w :
  foldl (fun w ds => setDateTextFormat (fromString ds) entryFormat w) w l =
  {| selectedDate := selectedDate w;
     dateTextFormats :=
       foldl (fun m ds => if isNull (fromString ds) then ∅
                          else <[fromString ds := entryFormat]> m)
             (dateTextFormats w) l |}.
Proof.
  revert w. induction l as [|ds l IH]; intros w; cbn [foldl].
  - now destruct w.
  - now rewrite IH.
Qed.

Lemma highlight_unfold refresh app :
  highlightDaysWithEntries refresh app =
  setCalendar
    {| selectedDate := selectedDate (calendarWidget app);
       dateTextFormats :=
         foldl (fun m ds => if isNull (fromString ds) then ∅
                            else <[fromString ds := entryFormat]> m)
               ∅ (result (exec refresh SelectDate (diary app)).2) |}
    app.
Proof.
  unfold highlightDaysWithEntries.
  pose proof (exec_select_date refresh (diary app)) as Ht.
  destruct (exec refresh SelectDate (diary app)) as [tbl query].
  cbn in Ht. subst tbl. rewrite marks_fold. cbn. now destruct app.
Qed.

Lemma highlight_diary refresh app :
  diary (highlightDaysWithEntries refresh app) = diary app.
Proof. now rewrite highlight_unfold. Qed.

Lemma highlight_selected refresh app :
  selectedDate (calendarWidget (highlightDaysWithEntries refresh app)) =
  selectedDate (calendarWidget app).
Proof. now rewrite highlight_unfold. Qed.

(** Whatever the loop leaves in the map is the green format, on a date it
    read from the list. *)
Lemma marks_lookup l m d f :
  foldl (fun m ds => if isNull (fromString ds) then ∅
                     else <[fromString ds := entryFormat]> m) m l !! d = Some f ->
  m !! d = Some f \/ (f = entryFormat /\ d ∈ fromString <$> l).
Proof.
  revert m. induction l as [|ds l IH]; intros m; cbn [foldl]; [auto|].
  intros [H | [-> H]]%IH.
  - destruct (isNull (fromString ds)); [now rewrite lookup_empty in H|].
    destruct (decide (fromString ds = d)) as [<-|Hne].
    + rewrite lookup_insert_eq in H. injection H as <-.
      right. split; [reflexivity | rewrite fmap_cons; left].
    + rewrite lookup_insert_ne in H by exact Hne. now left.
  - right. split; [reflexivity | rewrite fmap_cons; now right].
Qed.

Lemma marks_keep l m d :
  Forall (fun ds => isNull (fromString ds) = false) l ->
  m !! d = Some entryFormat ->
  foldl (fun m ds => if isNull (fromString ds) then ∅
                     else <[fromString ds := entryFormat]> m) m l !! d
    = Some entryFormat.
Proof.
  intros Hl. revert m. induction Hl as [|ds l Hds _ IH]; intros m Hm; cbn [foldl]; [exact Hm|].
  apply IH. rewrite Hds.
  destruct (decide (fromString ds = d)) as [<-|Hne].
  - apply lookup_insert_eq.
  - now rewrite lookup_insert_ne.
Qed.

Lemma marks_all l m d :
  Forall (fun ds => isNull (fromString ds) = false) l ->
  d ∈ fromString <$> l ->
  foldl (fun m ds => if isNull (fromString ds) then ∅
                     else <[fromString ds := entryFormat]> m) m l !! d
    = Some entryFormat.
Proof.
  intros Hl. revert m. induction Hl as [|ds l Hds Hl IH]; intros m Hd.
  - inversion Hd.
  - rewrite fmap_cons in Hd. cbn [foldl]. rewrite Hds.
    apply elem_of_cons in Hd as [-> | Hd].
    + apply marks_keep; [exact Hl | apply lookup_insert_eq].
    + now apply IH.
Qed.

Lemma highlighted_spec w d :
  d ∈ highlighted w <->
  exists f, dateTextFormats w !! d = Some f /\ background f = green.
Proof.
  unfold highlighted. rewrite elem_of_dom. unfold is_Some.
  split; intros [f H]; exists f.
  - now apply map_lookup_filter_Some in H.
  - now apply map_lookup_filter_Some.
Qed.

(** After a refresh only dates read from the table are highlighted. *)
Lemma highlighted_listed refresh app d :
  d ∈ highlighted (calendarWidget (highlightDaysWithEntries refresh app)) ->
  d ∈ listDatesWithEntries (diary app).
Proof.
  rewrite highlighted_spec, highlight_unfold. cbn.
  intros (f & [H | [_ H]]%marks_lookup & _).
  - now rewrite lookup_empty in H.
  - destruct refresh; [inversion H | exact H].
Qed.

Lemma datesWritten_not_null tbl :
  datesWritten tbl ->
  Forall (fun ds => isNull (fromString ds) = false) (Sql.date <$> rows tbl).
Proof.
  intros Hw. apply Forall_forall. intros ds (r & -> & Hr)%list_elem_of_fmap.
  destruct (Hw r Hr) as (d & Hd & ->).
  rewrite fromString_toString by exact Hd. now apply selectable_not_null.
Qed.

(** When the refresh query runs and every date string can be read back,
    exactly the listed dates are highlighted. *)
Lemma highlighted_exactly app :
  datesWritten (diary app) ->
  highlighted (calendarWidget (highlightDaysWithEntries None app)) =
  list_to_set (listDatesWithEntries (diary app)).
Proof.
  intros Hw. apply set_eq. intros d. rewrite elem_of_list_to_set. split.
  - apply highlighted_listed.
  - intros Hd. rewrite highlighted_spec, highlight_unfold. cbn.
    exists entryFormat. split; [|reflexivity].
    apply marks_all; [now apply datesWritten_not_null | exact Hd].
Qed.

End Highlighting.

(** ** The handlers *)

Section Handlers.

Implicit Types (app : DiaryApp) (fault refresh : Fault).

Lemma setDiary_same app : setDiary (diary app) app = app.
Proof. now destruct app. Qed.

(** Each of the three writing handlers is one statement followed, when it
    succeeded, by a line of log and a refresh. *)
Lemma addEntry_failure fault refresh app :
  let stmt := (Insert (toString (selectedDate (calendarWidget app))) (entryTextEdit app)) in
  ~ succeeds fault stmt (diary app) ->
  addEntry fault refresh app =
    qDebug ["Error inserting diary entry:"; lastError (exec fault stmt (diary app)).2] app.
Proof.
  intros stmt Hf. unfold addEntry. fold stmt.
  destruct (exec_failure _ _ _ Hf) as [msg ->].
  cbn. now rewrite setDiary_same.
Qed.

Lemma addEntry_success fault refresh app :
  let dateString := toString (selectedDate (calendarWidget app)) in
  succeeds fault (Insert dateString (entryTextEdit app)) (diary app) ->
  addEntry fault refresh app =
    highlightDaysWithEntries refresh
      (qDebug ["Diary entry added successfully for"; dateString]
         (setDiary (exec None (Insert dateString (entryTextEdit app)) (diary app)).1 app)).
Proof.
  intros ds Hs. pose proof (succeeds_no_fault _ _ _ Hs) as ->.
  unfold addEntry. fold ds. unfold succeeds in Hs.
  destruct (exec None (Insert ds (entryTextEdit app)) (diary app)) as [tbl q].
  cbn in Hs. now rewrite Hs.
Qed.

Lemma updateEntry_failure fault refresh app :
  let stmt := (Update (entryTextEdit app) (toString (selectedDate (calendarWidget app)))) in
  ~ succeeds fault stmt (diary app) ->
  updateEntry fault refresh app =
    qDebug ["Error updating diary entry:"; lastError (exec fault stmt (diary app)).2] app.
Proof.
  intros stmt Hf. unfold updateEntry. fold stmt.
  destruct (exec_failure _ _ _ Hf) as [msg ->].
  cbn. now rewrite setDiary_same.
Qed.

Lemma updateEntry_success fault refresh app :
  let dateString := toString (selectedDate (calendarWidget app)) in
  succeeds fault (Update (entryTextEdit app) dateString) (diary app) ->
  updateEntry fault refresh app =
    highlightDaysWithEntries refresh
      (qDebug ["Diary entry updated successfully for"; dateString]
         (setDiary (exec None (Update (entryTextEdit app) dateString) (diary app)).1 app)).
Proof.
  intros ds Hs. pose proof (succeeds_no_fault _ _ _ Hs) as ->.
  unfold updateEntry. fold ds. unfold succeeds in Hs.
  destruct (exec None (Update (entryTextEdit app) ds) (diary app)) as [tbl q].
  cbn in Hs. now rewrite Hs.
Qed.

Lemma removeEntry_failure fault refresh app :
  let stmt := (Delete (toString (selectedDate (calendarWidget app)))) in
  ~ succeeds fault stmt (diary app) ->
  removeEntry fault refresh app =
    qDebug ["Error removing diary entry:"; lastError (exec fault stmt (diary app)).2] app.
Proof.
  intros stmt Hf. unfold removeEntry. fold stmt.
  destruct (exec_failure _ _ _ Hf) as [msg ->].
  cbn. now rewrite setDiary_same.
Qed.

Lemma removeEntry_success fault refresh app :
  let dateString := toString (selectedDate (calendarWidget app)) in
  succeeds fault (Delete dateString) (diary app) ->
  removeEntry fault refresh app =
    highlightDaysWithEntries refresh
      (qDebug ["Diary entry removed successfully for"; dateString]
         (setDiary (exec None (Delete dateString) (diary app)).1 app)).
Proof.
  intros ds Hs. pose proof (succeeds_no_fault _ _ _ Hs) as ->.
  unfold removeEntry. fold ds. unfold succeeds in Hs.
  destruct (exec None (Delete ds) (diary app)) as [tbl q].
  cbn in Hs. now rewrite Hs.
Qed.

(** The table after a handler is the table after its statement. *)
Lemma addEntry_diary fault refresh app :
  diary (addEntry fault refresh app) =
  (exec fault (Insert (toString (selectedDate (calendarWidget app)))
                      (entryTextEdit app)) (diary app)).1.
Proof.
  destruct (decide (succeeds fault
    (Insert (toString (selectedDate (calendarWidget app))) (entryTextEdit app))
    (diary app))) as [Hs|Hf].
  - rewrite addEntry_success by exact Hs. rewrite highlight_diary.
    now rewrite (succeeds_no_fault _ _ _ Hs).
  - rewrite addEntry_failure by exact Hf.
    destruct (exec_failure _ _ _ Hf) as [msg ->]. reflexivity.
Qed.

Lemma updateEntry_diary fault refresh app :
  diary (updateEntry fault refresh app) =
  (exec fault (Update (entryTextEdit app)
                      (toString (selectedDate (calendarWidget app)))) (diary app)).1.
Proof.
  destruct (decide (succeeds fault
    (Update (entryTextEdit app) (toString (selectedDate (calendarWidget app))))
    (diary app))) as [Hs|Hf].
  - rewrite updateEntry_success by exact Hs. rewrite highlight_diary.
    now rewrite (succeeds_no_fault _ _ _ Hs).
  - rewrite updateEntry_failure by exact Hf.
    destruct (exec_failure _ _ _ Hf) as [msg ->]. reflexivity.
Qed.

Lemma removeEntry_diary fault refresh app :
  diary (removeEntry fault refresh app) =
  (exec fault (Delete (toString (selectedDate (calendarWidget app)))) (diary app)).1.
Proof.
  destruct (decide (succeeds fault
    (Delete (toString (selectedDate (calendarWidget app)))) (diary app))) as [Hs|Hf].
  - rewrite removeEntry_success by exact Hs. rewrite highlight_diary.
    now rewrite (succeeds_no_fault _ _ _ Hs).
  - rewrite removeEntry_failure by exact Hf.
    destruct (exec_failure _ _ _ Hf) as [msg ->]. reflexivity.
Qed.

Lemma showEntry_diary fault date app : diary (showEntry fault date app) = diary app.
Proof.
  unfold showEntry.
  pose proof (exec_select_entry fault (toString date) (diary app)) as Ht.
  destruct (exec fault (SelectEntry (toString date)) (diary app)) as [tbl q].
  cbn in Ht. subst tbl. now destruct (next q).
Qed.

Lemma showEntry_text date app :
  entryTextEdit (showEntry None date app) = default "" (get date (diary app)).
Proof.
  unfold showEntry, get.
  destruct (exec None (SelectEntry (toString date)) (diary app)) as [tbl q].
  cbn. now destruct (next q).
Qed.

(** No handler moves the calendar's selection. *)
Lemma addEntry_selected fault refresh app :
  selectedDate (calendarWidget (addEntry fault refresh app)) =
  selectedDate (calendarWidget app).
Proof.
  unfold addEntry. destruct (exec _ _ _) as [tbl q].
  destruct (active q); cbn [negb]; [now rewrite highlight_selected | reflexivity].
Qed.

Lemma updateEntry_selected fault refresh app :
  selectedDate (calendarWidget (updateEntry fault refresh app)) =
  selectedDate (calendarWidget app).
Proof.
  unfold updateEntry. destruct (exec _ _ _) as [tbl q].
  destruct (active q); cbn [negb]; [now rewrite highlight_selected | reflexivity].
Qed.

Lemma removeEntry_selected fault refresh app :
  selectedDate (calendarWidget (removeEntry fault refresh app)) =
  selectedDate (calendarWidget app).
Proof.
  unfold removeEntry. destruct (exec _ _ _) as [tbl q].
  destruct (active q); cbn [negb]; [now rewrite highlight_selected | reflexivity].
Qed.

Lemma showEntry_selected fault date app :
  selectedDate (calendarWidget (showEntry fault date app)) =
  selectedDate (calendarWidget app).
Proof.
  unfold showEntry. destruct (exec _ _ _) as [tbl q]. now destruct (next q).
Qed.

Lemma toggleWindow_rest reason app :
  diary (toggleWindow reason app) = diary app /\
  calendarWidget (toggleWindow reason app) = calendarWidget app.
Proof. unfold toggleWindow. case_decide; [destruct (visible app)|]; now split. Qed.

End Handlers.

(** The table and the selection after each handler, as rewrite rules. *)
Create Rewrite HintDb handlers.

#[global] Hint Rewrite
  highlight_diary showEntry_diary addEntry_diary updateEntry_diary removeEntry_diary
  highlight_selected showEntry_selected addEntry_selected updateEntry_selected
  removeEntry_selected : handlers.

(** ** What every reachable state satisfies *)

Section Reachable.

Lemma reachable_invariant allowed app :
  reachableWhen allowed app -> invariant app.
Proof.
  unfold invariant.
  induction 1 as [today refresh app Ht Hnew
                 | old today refresh app _ IH Ht Hnew
                 | date app _ IH Hd
                 | text app _ IH
                 | fault date app _ IH Hd
                 | reason app _ IH
                 | app _ IH
                 | fault refresh app _ IH _
                 | fault refresh app _ IH
                 | reply fault refresh app _ IH ].
  - injection Hnew as <-. cbn [setVisible diary calendarWidget].
    autorewrite with handlers. cbn.
    auto using datesWritten_empty, rowidsFresh_empty.
  - injection Hnew as <-. cbn [setVisible diary calendarWidget].
    autorewrite with handlers. cbn. tauto.
  - cbn. tauto.
  - cbn. tauto.
  - autorewrite with handlers. tauto.
  - destruct (toggleWindow_rest reason app) as [-> ->]. tauto.
  - exact IH.
  - destruct IH as (Hs & Hw & Hr). autorewrite with handlers.
    split; [exact Hs|]. split.
    + apply exec_datesWritten; eauto.
    + now apply exec_rowidsFresh.
  - destruct IH as (Hs & Hw & Hr). autorewrite with handlers.
    split; [exact Hs|]. split.
    + now apply exec_datesWritten.
    + now apply exec_rowidsFresh.
  - destruct reply; [|exact IH]. cbn [confirmRemoveEntry].
    destruct IH as (Hs & Hw & Hr). autorewrite with handlers.
    split; [exact Hs|]. split.
    + now apply exec_datesWritten.
    + now apply exec_rowidsFresh.
Qed.

(** Restricting the user restricts the states. *)
Lemma reachableWhen_reachable allowed app :
  reachableWhen allowed app -> reachable app.
Proof.
  unfold reachable. induction 1.
  - eapply reach_new; eauto.
  - eapply reach_again; eauto.
  - now apply reach_pick.
  - now apply reach_type.
  - now apply reach_show.
  - now apply reach_toggle.
  - now apply reach_tray_show.
  - now apply reach_add.
  - now apply reach_update.
  - now apply reach_remove.
Qed.

Lemma started_new : main true None march1 None = Some started.
Proof. reflexivity. Qed.

Lemma reachable_started allowed : reachableWhen allowed started.
Proof.
  apply (reach_new allowed march1 None); [|exact started_new].
  split; [reflexivity | cbn; lia].
Qed.

Lemma reachable_withHello : reachable withHello.
Proof.
  apply reach_add; [|exact I]. apply reach_type. apply reachable_started.
Qed.

Lemma reachable_withTwo : reachable withTwo.
Proof.
  apply reach_add; [|exact I]. apply reach_type. apply reachable_withHello.
Qed.

End Reachable.

(** ** Rows before and after a write *)

Section Writes.

Implicit Types (tbl : Table) (ds text : string) (r : Row) (l : list Row).

Lemma table_eta tbl : {| rows := rows tbl; sequence := sequence tbl |} = tbl.
Proof. now destruct tbl. Qed.

Lemma rows_update text ds tbl :
  rows (exec None (Update text ds) tbl).1 =
  (fun r => if decide (date r = ds) then setEntry text r else r) <$> rows tbl.
Proof. reflexivity. Qed.

Lemma rows_delete ds tbl :
  rows (exec None (Delete ds) tbl).1 = filter (fun r => date r <> ds) (rows tbl).
Proof. reflexivity. Qed.

Lemma dates_update text ds tbl :
  date <$> rows (exec None (Update text ds) tbl).1 = date <$> rows tbl.
Proof.
  rewrite rows_update, <- list_fmap_compose.
  apply list_fmap_ext. intros i r _. cbn. now case_decide.
Qed.

(** [UPDATE] rewrites the rows of its date and no other. *)
Lemma matching_update_same text ds tbl :
  matching ds (exec None (Update text ds) tbl).1 = setEntry text <$> matching ds tbl.
Proof.
  unfold matching. rewrite rows_update.
  induction (rows tbl) as [|r l IH]; [reflexivity|].
  rewrite fmap_cons, !filter_cons.
  destruct (decide (date r = ds)) as [E|N].
  - cbn [setEntry date]. rewrite decide_True by exact E.
    rewrite fmap_cons. now f_equal.
  - rewrite decide_False by exact N. exact IH.
Qed.

Lemma matching_update_other text ds ds' tbl :
  ds' <> ds ->
  matching ds' (exec None (Update text ds) tbl).1 = matching ds' tbl.
Proof.
  intros Hne. unfold matching. rewrite rows_update.
  induction (rows tbl) as [|r l IH]; [reflexivity|].
  rewrite fmap_cons, !filter_cons.
  destruct (decide (date r = ds)) as [E|N].
  - cbn [setEntry date]. rewrite !decide_False by congruence. exact IH.
  - destruct (decide (date r = ds')); [now f_equal | exact IH].
Qed.

Lemma update_nothing text ds tbl :
  matching ds tbl = [] -> (exec None (Update text ds) tbl).1 = tbl.
Proof.
  intros Hm. pose proof (proj1 (matching_nil ds tbl) Hm) as Hall.
  destruct tbl as [l s]. cbn in Hall |- *. f_equal.
  rewrite <- (list_fmap_id l) at 2.
  apply list_fmap_ext. intros i r Hr. cbn.
  rewrite decide_False; [reflexivity|].
  apply Hall. eapply list_elem_of_lookup_2, Hr.
Qed.

(** [DELETE] leaves no row of its date and every row of another. *)
Lemma matching_delete_same ds tbl :
  matching ds (exec None (Delete ds) tbl).1 = [].
Proof.
  apply matching_nil. intros r Hr. rewrite rows_delete in Hr.
  now apply list_elem_of_filter in Hr as [Hne _].
Qed.

Lemma delete_nothing ds tbl :
  matching ds tbl = [] -> (exec None (Delete ds) tbl).1 = tbl.
Proof.
  intros Hm. pose proof (proj1 (matching_nil ds tbl) Hm) as Hall.
  destruct tbl as [l s]. cbn in Hall |- *. f_equal.
  induction l as [|r l IH]; [reflexivity|].
  rewrite filter_cons, decide_True by (apply Hall; left).
  f_equal. apply IH; [|intros r' Hr'; apply Hall; now right].
  apply matching_nil. intros r' Hr'. apply Hall. now right.
Qed.

Lemma hasEntry_matching d tbl : hasEntry d tbl <-> matching (toString d) tbl <> [].
Proof.
  rewrite matching_nil. unfold hasEntry. split.
  - intros (r & Hr & E) H. exact (H r Hr E).
  - intros H. destruct (decide (Exists (fun r => date r = toString d) (rows tbl))) as [Hex|Hno].
    + apply Exists_exists in Hex as (r & Hr & E). eauto.
    + exfalso. apply H. intros r Hr E. apply Hno, Exists_exists. eauto.
Qed.

Lemma no_entry_matching d tbl : ~ hasEntry d tbl -> matching (toString d) tbl = [].
Proof.
  intros Hno. destruct (matching _ _) eqn:E; [reflexivity|].
  exfalso. apply Hno, hasEntry_matching. now rewrite E.
Qed.

(** What each statement does to "at most one row per date". *)
Lemma exec_oneRowPerDate fault stmt tbl :
  oneRowPerDate tbl ->
  match stmt with
  | Insert ds _ => matching ds tbl = []
  | _ => True
  end ->
  oneRowPerDate (exec fault stmt tbl).1.
Proof.
  unfold oneRowPerDate. intros Hnd Hs. destruct fault as [msg|]; [exact Hnd|].
  destruct stmt as [ds | ds text | text ds | ds | ]; try exact Hnd.
  - cbn [exec]. case_match; [exact Hnd|]. cbn [fst rows].
    rewrite fmap_app. apply NoDup_app. split; [exact Hnd|]. split.
    + intros x (r & -> & Hr)%list_elem_of_fmap Hx%list_elem_of_singleton.
      exact (proj1 (matching_nil ds tbl) Hs r Hr Hx).
    + apply NoDup_singleton.
  - now rewrite dates_update.
  - rewrite rows_delete. eapply sublist_NoDup; [exact Hnd|].
    apply fmap_sublist, sublist_filter.
Qed.

(** [INSERT] appends: the first row of the date stays the first. *)
Lemma matching_insert ds text tbl :
  succeeds None (Insert ds text) tbl ->
  matching ds (exec None (Insert ds text) tbl).1 =
  matching ds tbl ++ [mkRow (sequence tbl + 1) ds text].
Proof.
  intros Hs. rewrite exec_insert by exact Hs.
  unfold matching. cbn [rows]. rewrite filter_app. f_equal.
  now rewrite filter_cons, decide_True by reflexivity.
Qed.

Lemma get_after_insert d text tbl :
  succeeds None (Insert (toString d) text) tbl ->
  get d (exec None (Insert (toString d) text) tbl).1 =
    match get d tbl with Some older => Some older | None => Some text end.
Proof.
  intros Hs. rewrite !get_matching, matching_insert by exact Hs.
  now destruct (matching (toString d) tbl).
Qed.

Lemma listed_after_insert d text tbl :
  selectable d ->
  succeeds None (Insert (toString d) text) tbl ->
  d ∈ listDatesWithEntries (exec None (Insert (toString d) text) tbl).1.
Proof.
  intros Hd Hs. rewrite exec_insert by exact Hs.
  unfold listDatesWithEntries. cbn.
  rewrite !fmap_app. apply elem_of_app. right. cbn.
  rewrite fromString_toString by exact Hd. left.
Qed.

End Writes.

Section Removal.

(** Once the rows of a date are deleted the date is no longer listed,
    provided every date string was written from a selectable date. *)
Lemma not_listed_after_delete d tbl :
  datesWritten tbl ->
  d ∉ listDatesWithEntries (exec None (Delete (toString d)) tbl).1.
Proof.
  intros Hw Hin. unfold listDatesWithEntries in Hin. cbn in Hin.
  apply list_elem_of_fmap in Hin as (ds & -> & Hds).
  apply list_elem_of_fmap in Hds as (r & -> & Hr).
  apply list_elem_of_filter in Hr as [Hne Hr].
  destruct (Hw r Hr) as (d0 & Hd0 & E). apply Hne.
  rewrite E, fromString_toString by exact Hd0. reflexivity.
Qed.

End Removal.

(** * The claims *)

(** ** One entry per date *)

(** C1, as the specification states it, fails: the table has no uniqueness
    constraint on [date], and pressing "Add Entry" twice on 2024-03-01
    leaves two rows for that date in a reachable state. *)
Lemma C1_two_rows_for_one_date :
  reachable withTwo /\
  Sql.date <$> rows (diary withTwo) = ["2024-03-01"; "2024-03-01"] /\
  ~ oneRowPerDate (diary withTwo).
Proof.
  split; [exact reachable_withTwo|].
  assert (E : Sql.date <$> rows (diary withTwo) = ["2024-03-01"; "2024-03-01"])
    by (unfold withTwo, withHello; rewrite !addEntry_diary; reflexivity).
  split; [exact E|].
  unfold oneRowPerDate. rewrite E. intros H.
  apply NoDup_cons in H as [H _]. apply H. left.
Qed.

(** C1 (amended): in every state reached while "Add Entry" is only pressed
    on a date that has no entry, the table holds at most one row per date. *)
Theorem C1_one_row_per_date app :
  reachableWhen addsOncePerDate app -> oneRowPerDate (diary app).
Proof.
  induction 1 as [today refresh app Ht Hnew
                 | old today refresh app _ IH Ht Hnew
                 | date app _ IH Hd
                 | text app _ IH
                 | fault date app _ IH Hd
                 | reason app _ IH
                 | app _ IH
                 | fault refresh app _ IH Hadd
                 | fault refresh app _ IH
                 | reply fault refresh app _ IH ].
  - injection Hnew as <-. cbn [setVisible diary].
    rewrite highlight_diary. constructor.
  - injection Hnew as <-. cbn [setVisible diary]. now rewrite highlight_diary.
  - exact IH.
  - exact IH.
  - now rewrite showEntry_diary.
  - now destruct (toggleWindow_rest reason app) as [-> _].
  - exact IH.
  - rewrite addEntry_diary. apply exec_oneRowPerDate; [exact IH|].
    now apply no_entry_matching.
  - rewrite updateEntry_diary. now apply exec_oneRowPerDate.
  - destruct reply; [|exact IH]. cbn [confirmRemoveEntry].
    rewrite removeEntry_diary. now apply exec_oneRowPerDate.
Qed.

Lemma C1_one_row_per_date_witness :
  reachableWhen addsOncePerDate (addEntry None None (typeText "Hello" started)) /\
  oneRowPerDate (diary (addEntry None None (typeText "Hello" started))).
Proof.
  assert (H : reachableWhen addsOncePerDate (addEntry None None (typeText "Hello" started))).
  { apply reach_add; [apply reach_type, reachable_started|].
    intros (r & Hr & _). inversion Hr. }
  split; [exact H | exact (C1_one_row_per_date _ H)].
Defined.

(** ** add *)

(** C2, as stated, fails when the date already holds a row: [showEntry]
    reads the first row of the date, which is the older one. *)
Lemma C2_add_on_a_date_with_an_entry :
  let app := typeText "Again" withHello in
  reachable app /\
  succeeds None (Insert (toString march1) "Again") (diary app) /\
  get march1 (diary (addEntry None None app)) = Some "Hello" /\
  get march1 (diary (addEntry None None app)) <> Some "Again".
Proof.
  cbn zeta. split; [apply reach_type, reachable_withHello|].
  assert (E : get march1 (diary (addEntry None None (typeText "Again" withHello)))
              = Some "Hello")
    by (unfold withHello; rewrite !addEntry_diary; reflexivity).
  split; [|split; [exact E | rewrite E; discriminate]].
  unfold withHello. cbn [typeText setPlainText diary]. rewrite addEntry_diary.
  reflexivity.
Qed.

(** C2 (amended): after [addEntry] succeeded on a selectable date, the date
    is among the listed dates; [get] returns the added text when the date
    had no row before, and still returns the older text when it had one. *)
Theorem C2_add_then_get app fault refresh :
  let d := selectedDate (calendarWidget app) in
  let t := entryTextEdit app in
  let app' := addEntry fault refresh app in
  selectable d ->
  succeeds fault (Insert (toString d) t) (diary app) ->
  (~ hasEntry d (diary app) -> get d (diary app') = Some t) /\
  (forall t0, get d (diary app) = Some t0 -> get d (diary app') = Some t0) /\
  d ∈ listDatesWithEntries (diary app').
Proof.
  intros d t app' Hd Hs. subst app'.
  pose proof (succeeds_no_fault _ _ _ Hs) as ->.
  rewrite addEntry_diary. fold d t.
  rewrite get_after_insert by exact Hs.
  split; [|split].
  - intros Hno%get_None. now rewrite Hno.
  - intros t0 ->. reflexivity.
  - now apply listed_after_insert.
Qed.

Lemma C2_add_then_get_witness :
  selectable march1 /\
  succeeds None (Insert (toString march1) "Hello") (diary (typeText "Hello" started)) /\
  ~ hasEntry march1 (diary (typeText "Hello" started)) /\
  get march1 (diary (addEntry None None (typeText "Hello" started))) = Some "Hello" /\
  march1 ∈ listDatesWithEntries (diary (addEntry None None (typeText "Hello" started))).
Proof.
  assert (Hd : selectable march1) by (split; [reflexivity | cbn; lia]).
  assert (Hs : succeeds None (Insert (toString march1) "Hello")
                        (diary (typeText "Hello" started))) by reflexivity.
  assert (Hno : ~ hasEntry march1 (diary (typeText "Hello" started)))
    by (intros (r & Hr & _); inversion Hr).
  destruct (C2_add_then_get (typeText "Hello" started) None None Hd Hs)
    as (Hget & _ & Hin).
  exact (conj Hd (conj Hs (conj Hno (conj (Hget Hno) Hin)))).
Defined.

(** ** update *)

(** C3: on a date without an entry, [updateEntry] runs its statement
    without error, logs success, and leaves the table as it was; the date
    still has no entry. *)
Theorem C3_update_without_entry app refresh :
  let d := selectedDate (calendarWidget app) in
  let app' := updateEntry None refresh app in
  ~ hasEntry d (diary app) ->
  succeeds None (Update (entryTextEdit app) (toString d)) (diary app) /\
  diary app' = diary app /\
  get d (diary app') = None /\
  debug app' = debug app ++ [["Diary entry updated successfully for"; toString d]].
Proof.
  intros d app' Hno. subst app'.
  assert (Hs : succeeds None (Update (entryTextEdit app) (toString d)) (diary app))
    by reflexivity.
  assert (Hm : matching (toString d) (diary app) = [])
    by now apply no_entry_matching.
  assert (Ht : diary (updateEntry None refresh app) = diary app)
    by (rewrite updateEntry_diary; now apply update_nothing).
  split; [exact Hs|]. split; [exact Ht|]. split.
  - rewrite Ht. now apply get_None.
  - rewrite updateEntry_success by exact Hs. now rewrite highlight_unfold.
Qed.

Lemma C3_update_without_entry_witness :
  ~ hasEntry march2 (diary withHello) /\
  diary (updateEntry None None (typeText "X" (pickDate march2 withHello)))
    = diary withHello /\
  get march2 (diary (updateEntry None None (typeText "X" (pickDate march2 withHello))))
    = None.
Proof.
  assert (Hno : ~ hasEntry march2 (diary withHello)).
  { apply get_None. unfold withHello. rewrite addEntry_diary. reflexivity. }
  destruct (C3_update_without_entry (typeText "X" (pickDate march2 withHello)) None Hno)
    as (_ & Ht & Hg & _).
  split; [exact Hno | split; [exact Ht | exact Hg]].
Defined.

(** C4: on a date with an entry, a successful [updateEntry] makes [get]
    return the new text, and what [get] returns for any other date is what
    it returned before. *)
Theorem C4_update_existing app fault refresh :
  let d := selectedDate (calendarWidget app) in
  let t2 := entryTextEdit app in
  let app' := updateEntry fault refresh app in
  selectable d ->
  hasEntry d (diary app) ->
  succeeds fault (Update t2 (toString d)) (diary app) ->
  get d (diary app') = Some t2 /\
  forall d', selectable d' -> d' <> d -> get d' (diary app') = get d' (diary app).
Proof.
  intros d t2 app' Hd Hhas Hs. subst app'.
  pose proof (succeeds_no_fault _ _ _ Hs) as ->.
  rewrite updateEntry_diary. fold d t2. split.
  - rewrite get_matching, matching_update_same.
    apply hasEntry_matching in Hhas.
    destruct (matching (toString d) (diary app)); [contradiction | reflexivity].
  - intros d' Hd' Hne. rewrite !get_matching, matching_update_other; [reflexivity|].
    intros E. apply Hne. now apply toString_inj.
Qed.

Lemma C4_update_existing_witness :
  selectable march1 /\
  hasEntry march1 (diary withHello) /\
  succeeds None (Update "Bye" (toString march1)) (diary withHello) /\
  get march1 (diary (updateEntry None None (typeText "Bye" withHello))) = Some "Bye" /\
  get march2 (diary (updateEntry None None (typeText "Bye" withHello)))
    = get march2 (diary withHello).
Proof.
  assert (Hd : selectable march1) by (split; [reflexivity | cbn; lia]).
  assert (Hd' : selectable march2) by (split; [reflexivity | cbn; lia]).
  assert (Hhas : hasEntry march1 (diary withHello)).
  { exists (mkRow 1 "2024-03-01" "Hello"). unfold withHello.
    rewrite addEntry_diary. split; [left | reflexivity]. }
  assert (Hs : succeeds None (Update "Bye" (toString march1)) (diary withHello))
    by reflexivity.
  assert (Hsel : selectedDate (calendarWidget (typeText "Bye" withHello)) = march1)
    by reflexivity.
  pose proof (C4_update_existing (typeText "Bye" withHello) None None) as H.
  cbn zeta in H. rewrite Hsel in H. destruct (H Hd Hhas Hs) as [Hg Hother].
  assert (Hne : march2 <> march1) by discriminate.
  exact (conj Hd (conj Hhas (conj Hs (conj Hg (Hother march2 Hd' Hne))))).
Defined.

(** ** remove *)

(** C5: after a successful [removeEntry] the selected date has no entry
    and is not listed; on a date without an entry the statement still
    succeeds, the table stays as it was and success is logged. *)
Theorem C5_remove app :
  let d := selectedDate (calendarWidget app) in
  reachable app ->
  (forall fault refresh,
     succeeds fault (Delete (toString d)) (diary app) ->
     get d (diary (removeEntry fault refresh app)) = None /\
     d ∉ listDatesWithEntries (diary (removeEntry fault refresh app))) /\
  (~ hasEntry d (diary app) ->
   forall refresh,
     succeeds None (Delete (toString d)) (diary app) /\
     diary (removeEntry None refresh app) = diary app /\
     debug (removeEntry None refresh app) =
       debug app ++ [["Diary entry removed successfully for"; toString d]]).
Proof.
  intros d Hreach. destruct (reachable_invariant _ _ Hreach) as (Hd & Hw & _).
  split.
  - intros fault refresh Hs. pose proof (succeeds_no_fault _ _ _ Hs) as ->.
    rewrite removeEntry_diary. fold d. split.
    + now rewrite get_matching, matching_delete_same.
    + now apply not_listed_after_delete.
  - intros Hno refresh.
    assert (Hs : succeeds None (Delete (toString d)) (diary app)) by reflexivity.
    assert (Hm : matching (toString d) (diary app) = [])
      by now apply no_entry_matching.
    split; [exact Hs|]. split.
    + rewrite removeEntry_diary. now apply delete_nothing.
    + rewrite removeEntry_success by exact Hs. now rewrite highlight_unfold.
Qed.

Lemma C5_remove_witness :
  reachable withHello /\
  succeeds None (Delete (toString march1)) (diary withHello) /\
  get march1 (diary (removeEntry None None withHello)) = None /\
  march1 ∉ listDatesWithEntries (diary (removeEntry None None withHello)).
Proof.
  split; [exact reachable_withHello|].
  assert (Hs : succeeds None (Delete (toString march1)) (diary withHello))
    by reflexivity.
  split; [exact Hs|].
  destruct (C5_remove withHello reachable_withHello) as [H _].
  exact (H None None Hs).
Defined.

(** ** The highlighted days *)

(** C6: in a reachable state a refresh whose query runs highlights exactly
    the listed dates; the marks a refresh leaves do not depend on the marks
    it found, and a second refresh meeting the same table and the same
    storage changes nothing. *)
Theorem C6_refresh app :
  reachable app ->
  highlighted (calendarWidget (highlightDaysWithEntries None app)) =
    list_to_set (listDatesWithEntries (diary app)) /\
  (forall refresh w,
     selectedDate w = selectedDate (calendarWidget app) ->
     highlightDaysWithEntries refresh (setCalendar w app) =
     highlightDaysWithEntries refresh app) /\
  (forall refresh,
     highlightDaysWithEntries refresh (highlightDaysWithEntries refresh app) =
     highlightDaysWithEntries refresh app).
Proof.
  intros Hreach. destruct (reachable_invariant _ _ Hreach) as (_ & Hw & _).
  split; [now apply highlighted_exactly|]. split.
  - intros refresh w Hsel. rewrite !highlight_unfold. cbn. now rewrite Hsel.
  - intros refresh. now rewrite !highlight_unfold.
Qed.

Lemma C6_refresh_witness :
  reachable withTwo /\
  highlighted (calendarWidget (highlightDaysWithEntries None withTwo)) = {[ march1 ]} /\
  highlightDaysWithEntries None (highlightDaysWithEntries None withTwo) =
    highlightDaysWithEntries None withTwo.
Proof.
  split; [exact reachable_withTwo|].
  destruct (C6_refresh withTwo reachable_withTwo) as (H1 & _ & H3).
  split; [|exact (H3 None)].
  rewrite H1. apply set_eq. intros d.
  rewrite elem_of_list_to_set, elem_of_singleton.
  assert (E : listDatesWithEntries (diary withTwo) = [march1; march1])
    by (unfold withTwo, withHello; rewrite !addEntry_diary; reflexivity).
  rewrite E. rewrite !elem_of_cons. split; [intros [?|[?|H]]; auto; inversion H | auto].
Defined.

(** ** get *)

(** C7: on a date without an entry [get] is absent and [showEntry] clears
    the text box; with or without an entry, [showEntry] changes the text
    box and nothing else, so the table in particular is as before. *)
Theorem C7_get app d :
  (~ hasEntry d (diary app) ->
   get d (diary app) = None /\
   forall fault, entryTextEdit (showEntry fault d app) = "") /\
  (forall fault,
     diary (showEntry fault d app) = diary app /\
     showEntry fault d app = setPlainText (entryTextEdit (showEntry fault d app)) app).
Proof.
  split.
  - intros Hno. apply get_None in Hno. split; [exact Hno|].
    intros [msg|]; [reflexivity|]. now rewrite showEntry_text, Hno.
  - intros fault. split; [apply showEntry_diary|].
    unfold showEntry.
    pose proof (exec_select_entry fault (toString d) (diary app)) as Ht.
    destruct (exec fault (SelectEntry (toString d)) (diary app)) as [tbl q].
    cbn in Ht. subst tbl. destruct (next q); cbn; now rewrite setDiary_same.
Qed.

Lemma C7_get_witness :
  ~ hasEntry march2 (diary withHello) /\
  get march2 (diary withHello) = None /\
  entryTextEdit (showEntry None march2 withHello) = "".
Proof.
  assert (Hno : ~ hasEntry march2 (diary withHello)).
  { apply get_None. unfold withHello. rewrite addEntry_diary. reflexivity. }
  split; [exact Hno|].
  destruct (C7_get withHello march2) as [H _]. destruct (H Hno) as [Hg Ht].
  split; [exact Hg | exact (Ht None)].
Defined.

(** ** Failing statements *)

(** C8: when the statement of [addEntry], [updateEntry] or [removeEntry]
    does not succeed, the handler writes the error to the log and returns:
    the state it leaves differs from the state it found in that line only,
    so the table is as before and the calendar was not refreshed. *)
Theorem C8_failed_statement app fault refresh :
  let d := toString (selectedDate (calendarWidget app)) in
  let t := entryTextEdit app in
  (forall line, diary (qDebug line app) = diary app /\
                calendarWidget (qDebug line app) = calendarWidget app /\
                entryTextEdit (qDebug line app) = entryTextEdit app) /\
  (~ succeeds fault (Insert d t) (diary app) ->
   addEntry fault refresh app =
     qDebug ["Error inserting diary entry:";
             lastError (exec fault (Insert d t) (diary app)).2] app) /\
  (~ succeeds fault (Update t d) (diary app) ->
   updateEntry fault refresh app =
     qDebug ["Error updating diary entry:";
             lastError (exec fault (Update t d) (diary app)).2] app) /\
  (~ succeeds fault (Delete d) (diary app) ->
   removeEntry fault refresh app =
     qDebug ["Error removing diary entry:";
             lastError (exec fault (Delete d) (diary app)).2] app).
Proof.
  intros d t. split; [now intros line|].
  split; [apply addEntry_failure|].
  split; [apply updateEntry_failure | apply removeEntry_failure].
Qed.

Lemma C8_failed_statement_witness :
  ~ succeeds (Some "disk I/O error") (Insert "2024-03-01" "Bye") (diary withHello) /\
  addEntry (Some "disk I/O error") None (typeText "Bye" withHello) =
    qDebug ["Error inserting diary entry:"; "disk I/O error"] (typeText "Bye" withHello) /\
  diary (addEntry (Some "disk I/O error") None (typeText "Bye" withHello)) = diary withHello.
Proof.
  assert (Hf : ~ succeeds (Some "disk I/O error") (Insert "2024-03-01" "Bye")
                          (diary withHello)) by (intros H; discriminate H).
  split; [exact Hf|].
  destruct (C8_failed_statement (typeText "Bye" withHello) (Some "disk I/O error") None)
    as (_ & Hadd & _).
  assert (E : addEntry (Some "disk I/O error") None (typeText "Bye" withHello) =
    qDebug ["Error inserting diary entry:"; "disk I/O error"] (typeText "Bye" withHello))
    by (apply Hadd; intros H; discriminate H).
  split; [exact E | now rewrite E].
Defined.

(** C9: a successful [removeEntry] leaves no row at all for the selected
    date, however many there were, so the date has no entry and is not
    highlighted afterwards. *)
Theorem C9_remove_every_row app fault refresh :
  let d := selectedDate (calendarWidget app) in
  let app' := removeEntry fault refresh app in
  reachable app ->
  succeeds fault (Delete (toString d)) (diary app) ->
  matching (toString d) (diary app') = [] /\
  get d (diary app') = None /\
  d ∉ highlighted (calendarWidget app').
Proof.
  intros d app' Hreach Hs. subst app'.
  destruct (reachable_invariant _ _ Hreach) as (_ & Hw & _).
  pose proof (succeeds_no_fault _ _ _ Hs) as ->.
  rewrite removeEntry_diary. fold d.
  split; [apply matching_delete_same|].
  split; [now rewrite get_matching, matching_delete_same|].
  rewrite removeEntry_success by exact Hs. fold d.
  intros Hin%highlighted_listed. cbn [qDebug setDiary diary] in Hin.
  now apply (not_listed_after_delete d (diary app)).
Qed.

Lemma C9_remove_every_row_witness :
  reachable withTwo /\
  length (matching (toString march1) (diary withTwo)) = 2%nat /\
  succeeds None (Delete (toString march1)) (diary withTwo) /\
  matching (toString march1) (diary (removeEntry None None withTwo)) = [] /\
  get march1 (diary (removeEntry None None withTwo)) = None /\
  march1 ∉ highlighted (calendarWidget (removeEntry None None withTwo)).
Proof.
  split; [exact reachable_withTwo|].
  split; [unfold withTwo, withHello; rewrite !addEntry_diary; reflexivity|].
  assert (Hs : succeeds None (Delete (toString march1)) (diary withTwo)) by reflexivity.
  split; [exact Hs|].
  exact (C9_remove_every_row withTwo None None reachable_withTwo Hs).
Defined.

(** ** Empty text *)

(** C10, as stated, fails for the same reason as C2: on a date that holds
    a row, adding the empty text leaves [get] at the older row's text. *)
Lemma C10_empty_text_on_a_date_with_an_entry :
  let app := typeText "" withHello in
  reachable app /\
  succeeds None (Insert (toString march1) "") (diary app) /\
  get march1 (diary (addEntry None None app)) = Some "Hello" /\
  get march1 (diary (addEntry None None app)) <> Some "".
Proof.
  cbn zeta. split; [apply reach_type, reachable_withHello|].
  assert (E : get march1 (diary (addEntry None None (typeText "" withHello)))
              = Some "Hello")
    by (unfold withHello; rewrite !addEntry_diary; reflexivity).
  split; [|split; [exact E | rewrite E; discriminate]].
  unfold withHello. cbn [typeText setPlainText diary]. rewrite addEntry_diary.
  reflexivity.
Qed.

(** C10 (amended): [addEntry] takes the empty text like any other.  With
    the text box empty the statement succeeds whenever it would with
    another text; when it does, the table gains one row for the selected
    date whose text is empty, the date is listed, it is highlighted once
    the refresh query runs, and [get] returns the empty text, which is not
    "absent", provided the date had no row before. *)
Theorem C10_add_empty_text app fault refresh :
  let d := selectedDate (calendarWidget app) in
  let app' := addEntry fault refresh app in
  reachable app ->
  entryTextEdit app = "" ->
  (forall t, succeeds fault (Insert (toString d) "") (diary app) <->
             succeeds fault (Insert (toString d) t) (diary app)) /\
  (succeeds fault (Insert (toString d) "") (diary app) ->
   rows (diary app') =
     rows (diary app) ++ [mkRow (sequence (diary app) + 1) (toString d) ""] /\
   (~ hasEntry d (diary app) -> get d (diary app') = Some "") /\
   d ∈ listDatesWithEntries (diary app') /\
   (refresh = None -> d ∈ highlighted (calendarWidget app'))).
Proof.
  intros d app' Hreach Htext. subst app'.
  destruct (reachable_invariant _ _ Hreach) as (Hd & _ & _). fold d in Hd.
  split.
  - intros t. destruct fault as [msg|]; [reflexivity|].
    now rewrite !succeeds_insert.
  - intros Hs. pose proof (succeeds_no_fault _ _ _ Hs) as ->.
    assert (Hin : d ∈ listDatesWithEntries
                        (exec None (Insert (toString d) "") (diary app)).1)
      by now apply listed_after_insert.
    rewrite addEntry_diary. fold d. rewrite Htext.
    split; [now rewrite exec_insert by exact Hs|].
    split; [intros Hno%get_None; now rewrite get_after_insert, Hno by exact Hs|].
    split; [exact Hin|].
    intros ->.
    assert (Hreach' : reachable (addEntry None None app))
      by (apply reach_add; [exact Hreach | exact I]).
    destruct (reachable_invariant _ _ Hreach') as (_ & Hw' & _).
    rewrite addEntry_diary in Hw'. fold d in Hw'. rewrite Htext in Hw'.
    rewrite addEntry_success by (fold d; rewrite Htext; exact Hs).
    fold d. rewrite Htext, highlighted_exactly by exact Hw'.
    now apply elem_of_list_to_set.
Qed.

Lemma C10_add_empty_text_witness :
  reachable started /\
  entryTextEdit started = "" /\
  succeeds None (Insert (toString march1) "") (diary started) /\
  ~ hasEntry march1 (diary started) /\
  get march1 (diary (addEntry None None started)) = Some "" /\
  march1 ∈ listDatesWithEntries (diary (addEntry None None started)) /\
  march1 ∈ highlighted (calendarWidget (addEntry None None started)).
Proof.
  assert (Hr : reachable started) by apply reachable_started.
  assert (Hs : succeeds None (Insert (toString march1) "") (diary started))
    by reflexivity.
  assert (Hno : ~ hasEntry march1 (diary started))
    by (intros (r & Hr' & _); inversion Hr').
  destruct (C10_add_empty_text started None None Hr eq_refl) as [_ H].
  destruct (H Hs) as (_ & Hget & Hin & Hhi).
  exact (conj Hr (conj eq_refl (conj Hs (conj Hno
           (conj (Hget Hno) (conj Hin (Hhi eq_refl))))))).
Defined.

(** * Further properties of the handlers *)

(** ** More on what a write keeps *)

Section Frames.

Implicit Types (tbl : Table) (ds text : string) (r : Row) (l : list Row).

Lemma rows_insert ds text tbl :
  rows (exec None (Insert ds text) tbl).1 =
  rows tbl ++ (if decide (succeeds None (Insert ds text) tbl)
               then [mkRow (sequence tbl + 1) ds text] else []).
Proof.
  destruct (decide _) as [Hs|Hf].
  - now rewrite exec_insert by exact Hs.
  - destruct (exec_failure _ _ _ Hf) as [msg ->]. cbn. now rewrite app_nil_r.
Qed.

Lemma matching_insert_other ds ds' text tbl :
  ds' <> ds ->
  matching ds' (exec None (Insert ds text) tbl).1 = matching ds' tbl.
Proof.
  intros Hne. unfold matching. rewrite rows_insert, filter_app.
  case_decide; [|now rewrite filter_nil, app_nil_r].
  rewrite filter_cons, decide_False by (cbn; congruence).
  now rewrite filter_nil, app_nil_r.
Qed.

Lemma matching_delete_other ds ds' tbl :
  ds' <> ds ->
  matching ds' (exec None (Delete ds) tbl).1 = matching ds' tbl.
Proof.
  intros Hne. unfold matching. rewrite rows_delete.
  induction (rows tbl) as [|r l IH]; [reflexivity|].
  rewrite !filter_cons. destruct (decide (date r <> ds)) as [N|E].
  - rewrite filter_cons. destruct (decide (date r = ds')); [now f_equal | exact IH].
  - rewrite decide_False; [exact IH|]. intros E'. apply E. congruence.
Qed.

(** A statement that fails, or a query, changes no row. *)
Lemma matching_exec_other fault stmt ds' tbl :
  match stmt with
  | Insert ds _ | Delete ds => ds' <> ds
  | Update _ ds => ds' <> ds
  | _ => True
  end ->
  matching ds' (exec fault stmt tbl).1 = matching ds' tbl.
Proof.
  intros Hne. destruct fault as [msg|]; [reflexivity|].
  destruct stmt; try reflexivity.
  - now apply matching_insert_other.
  - now apply matching_update_other.
  - now apply matching_delete_other.
Qed.

Lemma sequence_exec fault stmt tbl :
  sequence tbl <= sequence (exec fault stmt tbl).1.
Proof.
  destruct fault as [msg|]; [reflexivity|].
  destruct stmt; cbn; try lia. case_match; cbn; lia.
Qed.

End Frames.

(** ** Rowids in table order *)

Section Ascend.

Implicit Types (tbl : Table) (l : list Row).

Lemma ascend_filter (P : Row -> Prop) `{!forall r, Decision (P r)} l :
  StronglySorted Z.lt (id <$> l) -> StronglySorted Z.lt (id <$> filter P l).
Proof.
  induction l as [|r l IH]; [intros; constructor|].
  rewrite fmap_cons, StronglySorted_cons. intros [Hall Hs].
  rewrite filter_cons. destruct (decide (P r)); [|now apply IH].
  rewrite fmap_cons. apply StronglySorted_cons. split; [|now apply IH].
  apply Forall_forall. intros x (r' & -> & [_ Hr']%list_elem_of_filter)%list_elem_of_fmap.
  rewrite Forall_forall in Hall. apply Hall. now apply list_elem_of_fmap_2.
Qed.

Lemma exec_rowidsAscend fault stmt tbl :
  rowidsFresh tbl -> rowidsAscend tbl -> rowidsAscend (exec fault stmt tbl).1.
Proof.
  unfold rowidsAscend. intros (_ & _ & Hle) Hs.
  destruct fault as [msg|]; [exact Hs|].
  destruct stmt as [ds | ds text | text ds | ds | ]; try exact Hs.
  - rewrite rows_insert. case_decide; [|now rewrite app_nil_r].
    rewrite fmap_app. apply StronglySorted_app. split; [|split; [exact Hs|]].
    + intros x1 x2 (r & -> & Hr)%list_elem_of_fmap Hx2.
      apply list_elem_of_singleton in Hx2. subst x2. cbn.
      specialize (Hle r Hr). lia.
    + cbn. repeat constructor.
  - rewrite rows_update, <- list_fmap_compose.
    erewrite list_fmap_ext; [exact Hs|]. intros i r _. cbn. now case_decide.
  - rewrite rows_delete. now apply ascend_filter.
Qed.

Lemma reachable_ascend allowed app :
  reachableWhen allowed app -> rowidsAscend (diary app).
Proof.
  intros Hreach. induction Hreach as [today refresh app Ht Hnew
                 | old today refresh app Hold IH Ht Hnew
                 | date app _ IH Hd
                 | text app _ IH
                 | fault date app _ IH Hd
                 | reason app _ IH
                 | app _ IH
                 | fault refresh app Hpre IH _
                 | fault refresh app Hpre IH
                 | reply fault refresh app Hpre IH ].
  - injection Hnew as <-. cbn [setVisible diary]. autorewrite with handlers.
    constructor.
  - injection Hnew as <-. cbn [setVisible diary]. now autorewrite with handlers.
  - exact IH.
  - exact IH.
  - now autorewrite with handlers.
  - now destruct (toggleWindow_rest reason app) as [-> _].
  - exact IH.
  - destruct (reachable_invariant _ _ Hpre) as (_ & _ & Hf).
    autorewrite with handlers. now apply exec_rowidsAscend.
  - destruct (reachable_invariant _ _ Hpre) as (_ & _ & Hf).
    autorewrite with handlers. now apply exec_rowidsAscend.
  - destruct reply; [|exact IH]. cbn [confirmRemoveEntry].
    destruct (reachable_invariant _ _ Hpre) as (_ & _ & Hf).
    autorewrite with handlers. now apply exec_rowidsAscend.
Qed.

(** In a table whose rowids ascend, the first row a filter keeps has the
    smallest rowid of all the rows it keeps. *)
Lemma head_filter_least (P : Row -> Prop) `{!forall r, Decision (P r)} l r :
  StronglySorted Z.lt (id <$> l) ->
  head (filter P l) = Some r ->
  r ∈ l /\ P r /\ forall r', r' ∈ l -> P r' -> id r <= id r'.
Proof.
  induction l as [|x l IH]; [discriminate|].
  rewrite fmap_cons, StronglySorted_cons. intros [Hall Hs].
  rewrite filter_cons. destruct (decide (P x)) as [Hx|Hx].
  - cbn. intros [= <-]. split; [left|]. split; [exact Hx|].
    intros r' [->|Hr']%elem_of_cons _; [lia|].
    rewrite Forall_forall in Hall.
    specialize (Hall (id r') (list_elem_of_fmap_2 id _ _ Hr')). lia.
  - intros Hh. destruct (IH Hs Hh) as (Hin & Hr & Hleast).
    split; [now right|]. split; [exact Hr|].
    intros r' [->|Hr']%elem_of_cons HP; [contradiction | now apply Hleast].
Qed.

End Ascend.

Section Widgets.

Implicit Types (app : DiaryApp) (fault refresh : Fault).

(** The refresh touches the calendar only. *)
Lemma highlight_rest refresh app :
  entryTextEdit (highlightDaysWithEntries refresh app) = entryTextEdit app /\
  visible (highlightDaysWithEntries refresh app) = visible app /\
  debug (highlightDaysWithEntries refresh app) = debug app.
Proof. now rewrite highlight_unfold. Qed.

Lemma addEntry_text fault refresh app :
  entryTextEdit (addEntry fault refresh app) = entryTextEdit app.
Proof.
  unfold addEntry. destruct (exec _ _ _) as [tbl q].
  destruct (active q); cbn [negb]; [|reflexivity].
  now rewrite (proj1 (highlight_rest _ _)).
Qed.

Lemma updateEntry_text fault refresh app :
  entryTextEdit (updateEntry fault refresh app) = entryTextEdit app.
Proof.
  unfold updateEntry. destruct (exec _ _ _) as [tbl q].
  destruct (active q); cbn [negb]; [|reflexivity].
  now rewrite (proj1 (highlight_rest _ _)).
Qed.

Lemma removeEntry_text fault refresh app :
  entryTextEdit (removeEntry fault refresh app) = entryTextEdit app.
Proof.
  unfold removeEntry. destruct (exec _ _ _) as [tbl q].
  destruct (active q); cbn [negb]; [|reflexivity].
  now rewrite (proj1 (highlight_rest _ _)).
Qed.

(** With every date string written from a selectable date, a listed date
    has a row, and a selectable date is listed exactly when it has one. *)
Lemma listed_has_row tbl d :
  datesWritten tbl -> d ∈ listDatesWithEntries tbl -> hasEntry d tbl.
Proof.
  intros Hw. unfold listDatesWithEntries, hasEntry. cbn.
  intros (ds & -> & (r & -> & Hr)%list_elem_of_fmap)%list_elem_of_fmap.
  exists r. split; [exact Hr|].
  destruct (Hw r Hr) as (d0 & Hd0 & E).
  rewrite E. now rewrite fromString_toString by exact Hd0.
Qed.

Lemma listed_hasEntry tbl d :
  datesWritten tbl -> selectable d ->
  d ∈ listDatesWithEntries tbl <-> hasEntry d tbl.
Proof.
  intros Hw Hd. split; [now apply listed_has_row|].
  unfold listDatesWithEntries, hasEntry. cbn.
  intros (r & Hr & E). apply list_elem_of_fmap. exists (Sql.date r).
  split; [now rewrite E, fromString_toString by exact Hd|].
  now apply list_elem_of_fmap_2.
Qed.

Lemma synced app d :
  datesWritten (diary app) -> selectable d ->
  d ∈ highlighted (calendarWidget (highlightDaysWithEntries None app)) <->
  hasEntry d (diary app).
Proof.
  intros Hw Hd. rewrite highlighted_exactly by exact Hw.
  rewrite elem_of_list_to_set. now apply listed_hasEntry.
Qed.

End Widgets.

(** ** The window *)

(** X1: a double click on the tray icon flips the window between shown and
    hidden, so two double clicks restore the state; every other activation
    does nothing; and no activation touches the table, the calendar, the
    text box or the log. *)
Theorem X1_toggleWindow app reason :
  toggleWindow DoubleClick (toggleWindow DoubleClick app) = app /\
  visible (toggleWindow DoubleClick app) = negb (visible app) /\
  (reason <> DoubleClick -> toggleWindow reason app = app) /\
  diary (toggleWindow reason app) = diary app /\
  calendarWidget (toggleWindow reason app) = calendarWidget app /\
  entryTextEdit (toggleWindow reason app) = entryTextEdit app /\
  debug (toggleWindow reason app) = debug app.
Proof.
  destruct app as [tbl w text v log].
  split; [now destruct v|]. split; [now destruct v|]. split.
  - intros Hne. unfold toggleWindow. now rewrite decide_False.
  - unfold toggleWindow. case_decide; [destruct v|]; now repeat split.
Qed.

Lemma X1_toggleWindow_witness :
  Trigger <> DoubleClick /\
  toggleWindow Trigger withHello = withHello /\
  visible (toggleWindow DoubleClick withHello) = false.
Proof.
  assert (Hne : Trigger <> DoubleClick) by discriminate.
  destruct (X1_toggleWindow withHello Trigger) as (_ & Hv & Hsame & _).
  split; [exact Hne|]. split; [exact (Hsame Hne) | exact Hv].
Defined.

(** ** What remove and add leave alone *)

(** X2: whatever the user replies and whatever the storage does,
    [confirmRemoveEntry] adds no row and keeps, in order, every row of every
    other date; so [get] on any other selectable date returns what it
    returned before.  Replying "No" leaves the whole state as it was, and
    the rowid sequence is never touched. *)
Theorem X2_confirmRemoveEntry_keeps app reply fault refresh :
  let d := selectedDate (calendarWidget app) in
  let app' := confirmRemoveEntry reply fault refresh app in
  rows (diary app') `sublist_of` rows (diary app) /\
  (forall ds, ds <> toString d ->
     matching ds (diary app') = matching ds (diary app)) /\
  (selectable d -> forall d', selectable d' -> d' <> d ->
     get d' (diary app') = get d' (diary app)) /\
  sequence (diary app') = sequence (diary app) /\
  confirmRemoveEntry No fault refresh app = app.
Proof.
  intros d app'. subst app'.
  assert (Hother : forall ds, ds <> toString d ->
            matching ds (diary (confirmRemoveEntry reply fault refresh app))
            = matching ds (diary app)).
  { intros ds Hne. destruct reply; [|reflexivity]. cbn [confirmRemoveEntry].
    rewrite removeEntry_diary. now apply matching_exec_other. }
  split; [|split; [exact Hother|split; [|split; [|reflexivity]]]].
  - destruct reply; [|reflexivity]. cbn [confirmRemoveEntry].
    rewrite removeEntry_diary. destruct fault as [msg|]; [reflexivity|].
    rewrite rows_delete. apply sublist_filter.
  - intros Hd d' Hd' Hne. rewrite !get_matching, Hother; [reflexivity|].
    intros E. apply Hne. now apply toString_inj.
  - destruct reply; [|reflexivity]. cbn [confirmRemoveEntry].
    rewrite removeEntry_diary. now destruct fault.
Qed.

Lemma X2_confirmRemoveEntry_keeps_witness :
  selectable march2 /\ selectable march1 /\ march1 <> march2 /\
  get march1 (diary (confirmRemoveEntry Yes None None (pickDate march2 withHello)))
    = Some "Hello".
Proof.
  assert (Hd : selectable march2) by (split; [reflexivity | cbn; lia]).
  assert (Hd' : selectable march1) by (split; [reflexivity | cbn; lia]).
  assert (Hne : march1 <> march2) by discriminate.
  destruct (X2_confirmRemoveEntry_keeps (pickDate march2 withHello) Yes None None)
    as (_ & _ & Hget & _).
  split; [exact Hd|]. split; [exact Hd'|]. split; [exact Hne|].
  rewrite (Hget Hd march1 Hd' Hne). reflexivity.
Defined.

(** X3: [addEntry] only ever appends: the rows it finds stay where they
    are, followed by the new row when the statement succeeded and by
    nothing when it failed.  The rows of every other date, and so [get] on
    every other selectable date, are as before; the text box keeps the
    text and the calendar keeps its selection. *)
Theorem X3_addEntry_appends app fault refresh :
  let d := selectedDate (calendarWidget app) in
  let t := entryTextEdit app in
  let app' := addEntry fault refresh app in
  rows (diary app') =
    rows (diary app) ++
      (if decide (succeeds fault (Insert (toString d) t) (diary app))
       then [mkRow (sequence (diary app) + 1) (toString d) t] else []) /\
  (forall ds, ds <> toString d ->
     matching ds (diary app') = matching ds (diary app)) /\
  (selectable d -> forall d', selectable d' -> d' <> d ->
     get d' (diary app') = get d' (diary app)) /\
  entryTextEdit app' = t /\
  selectedDate (calendarWidget app') = d.
Proof.
  intros d t app'. subst app'.
  assert (Hother : forall ds, ds <> toString d ->
            matching ds (diary (addEntry fault refresh app)) = matching ds (diary app)).
  { intros ds Hne. rewrite addEntry_diary. now apply matching_exec_other. }
  split; [|split; [exact Hother|split; [|split]]].
  - rewrite addEntry_diary. fold d t. destruct fault as [msg|].
    + cbn. rewrite decide_False by (intros H; discriminate H). now rewrite app_nil_r.
    + apply rows_insert.
  - intros Hd d' Hd' Hne. rewrite !get_matching, Hother; [reflexivity|].
    intros E. apply Hne. now apply toString_inj.
  - apply addEntry_text.
  - apply addEntry_selected.
Qed.

Lemma X3_addEntry_appends_witness :
  selectable march2 /\ selectable march1 /\ march1 <> march2 /\
  get march1 (diary (addEntry None None (typeText "X" (pickDate march2 withHello))))
    = Some "Hello".
Proof.
  assert (Hd : selectable march2) by (split; [reflexivity | cbn; lia]).
  assert (Hd' : selectable march1) by (split; [reflexivity | cbn; lia]).
  assert (Hne : march1 <> march2) by discriminate.
  destruct (X3_addEntry_appends (typeText "X" (pickDate march2 withHello)) None None)
    as (_ & _ & Hget & _).
  split; [exact Hd|]. split; [exact Hd'|]. split; [exact Hne|].
  rewrite (Hget Hd march1 Hd' Hne). reflexivity.
Defined.

(** ** Rowids *)

(** X4: in every reachable state the rowids grow strictly along the rows,
    so no two rows share one, and each lies between 1 and the recorded
    sequence. *)
Theorem X4_rowids_ascend app :
  reachable app ->
  rowidsAscend (diary app) /\
  NoDup (id <$> rows (diary app)) /\
  forall r, r ∈ rows (diary app) -> 1 <= id r <= sequence (diary app).
Proof.
  intros Hreach. split; [now apply (reachable_ascend _ _ Hreach)|].
  destruct (reachable_invariant _ _ Hreach) as (_ & _ & Hnd & _ & Hle).
  split; [exact Hnd|]. intros r Hr. specialize (Hle r Hr). lia.
Qed.

Lemma X4_rowids_ascend_witness :
  reachable withTwo /\ id <$> rows (diary withTwo) = [1; 2] /\
  rowidsAscend (diary withTwo).
Proof.
  split; [exact reachable_withTwo|]. split; [reflexivity|].
  exact (proj1 (X4_rowids_ascend withTwo reachable_withTwo)).
Defined.

(** X5: what [get] shows when a date has several rows is the text of the
    one with the smallest rowid, the row added first. *)
Theorem X5_get_oldest app d t :
  reachable app ->
  get d (diary app) = Some t ->
  exists r, r ∈ rows (diary app) /\ Sql.date r = toString d /\ entry r = t /\
    forall r', r' ∈ rows (diary app) -> Sql.date r' = toString d -> id r <= id r'.
Proof.
  intros Hreach. rewrite get_matching. unfold matching.
  destruct (head _) as [r|] eqn:Hh; [|discriminate]. cbn. intros [= <-].
  pose proof (reachable_ascend _ _ Hreach) as Hs.
  destruct (head_filter_least _ _ _ Hs Hh) as (Hin & Hd & Hleast).
  exists r. auto.
Qed.

Lemma X5_get_oldest_witness :
  reachable withTwo /\ get march1 (diary withTwo) = Some "Hello" /\
  exists r, r ∈ rows (diary withTwo) /\ Sql.date r = toString march1 /\
    entry r = "Hello" /\
    forall r', r' ∈ rows (diary withTwo) -> Sql.date r' = toString march1 ->
               id r <= id r'.
Proof.
  assert (Hg : get march1 (diary withTwo) = Some "Hello") by reflexivity.
  split; [exact reachable_withTwo|]. split; [exact Hg|].
  exact (X5_get_oldest withTwo march1 "Hello" reachable_withTwo Hg).
Defined.

(** ** Starting the application *)



(** ** update *)

(** X7: a successful [updateEntry] gives the new text to every row of the
    selected date, however many there are, and changes nothing else: the
    rows keep their rowids, their dates and their order, a row of another
    date is the row it was, and the listed dates are the same. *)
Theorem X7_update_every_row app fault refresh :
  let d := selectedDate (calendarWidget app) in
  let t2 := entryTextEdit app in
  let app' := updateEntry fault refresh app in
  succeeds fault (Update t2 (toString d)) (diary app) ->
  id <$> rows (diary app') = id <$> rows (diary app) /\
  Sql.date <$> rows (diary app') = Sql.date <$> rows (diary app) /\
  (forall r, r ∈ rows (diary app') -> Sql.date r = toString d -> entry r = t2) /\
  (forall ds, ds <> toString d -> matching ds (diary app') = matching ds (diary app)) /\
  listDatesWithEntries (diary app') = listDatesWithEntries (diary app) /\
  sequence (diary app') = sequence (diary app).
Proof.
  intros d t2 app' Hs. subst app'.
  pose proof (succeeds_no_fault _ _ _ Hs) as ->.
  rewrite updateEntry_diary. fold d t2.
  assert (Hdates : Sql.date <$> rows (exec None (Update t2 (toString d)) (diary app)).1
                   = Sql.date <$> rows (diary app)) by apply dates_update.
  split; [|split; [exact Hdates|split; [|split; [|split]]]].
  - rewrite rows_update, <- list_fmap_compose.
    apply list_fmap_ext. intros i r _. cbn. now case_decide.
  - intros r Hr Hd. rewrite rows_update in Hr.
    apply list_elem_of_fmap in Hr as (r0 & -> & _).
    destruct (decide (Sql.date r0 = toString d)) as [_|N]; [reflexivity|].
    contradiction.
  - intros ds Hne. now apply matching_update_other.
  - unfold listDatesWithEntries.
    change (fromString <$> (Sql.date <$> rows (exec None (Update t2 (toString d)) (diary app)).1)
            = fromString <$> (Sql.date <$> rows (diary app))).
    now rewrite Hdates.
  - reflexivity.
Qed.

Lemma X7_update_every_row_witness :
  succeeds None (Update "Bye" (toString march1)) (diary withTwo) /\
  entry <$> rows (diary withTwo) = ["Hello"; "Again"] /\
  entry <$> rows (diary (updateEntry None None (typeText "Bye" withTwo)))
    = ["Bye"; "Bye"] /\
  id <$> rows (diary (updateEntry None None (typeText "Bye" withTwo))) = [1; 2].
Proof.
  assert (Hs : succeeds None (Update "Bye" (toString march1)) (diary withTwo))
    by reflexivity.
  destruct (X7_update_every_row (typeText "Bye" withTwo) None None Hs) as (Hid & _).
  split; [exact Hs|]. split; [reflexivity|]. split; [reflexivity|].
  rewrite Hid. reflexivity.
Defined.

(** ** The calendar after a write *)

(** X8: in a reachable state, after [addEntry], [updateEntry] or
    [removeEntry] ran its statement and the refresh query ran too, a
    selectable day is green exactly when it has an entry. *)
Theorem X8_green_iff_entry app fault d' :
  let d := toString (selectedDate (calendarWidget app)) in
  let t := entryTextEdit app in
  reachable app -> selectable d' ->
  (succeeds fault (Insert d t) (diary app) ->
   d' ∈ highlighted (calendarWidget (addEntry fault None app)) <->
   hasEntry d' (diary (addEntry fault None app))) /\
  (succeeds fault (Update t d) (diary app) ->
   d' ∈ highlighted (calendarWidget (updateEntry fault None app)) <->
   hasEntry d' (diary (updateEntry fault None app))) /\
  (succeeds fault (Delete d) (diary app) ->
   d' ∈ highlighted (calendarWidget (removeEntry fault None app)) <->
   hasEntry d' (diary (removeEntry fault None app))).
Proof.
  intros d t Hreach Hd'. split; [|split]; intros Hs.
  - assert (Hr : reachable (addEntry fault None app))
      by (apply reach_add; [exact Hreach | exact I]).
    destruct (reachable_invariant _ _ Hr) as (_ & Hw & _).
    rewrite addEntry_success in Hw |- * by exact Hs.
    rewrite highlight_diary in Hw |- *. now apply synced.
  - assert (Hr : reachable (updateEntry fault None app))
      by (apply reach_update; exact Hreach).
    destruct (reachable_invariant _ _ Hr) as (_ & Hw & _).
    rewrite updateEntry_success in Hw |- * by exact Hs.
    rewrite highlight_diary in Hw |- *. now apply synced.
  - assert (Hr : reachable (removeEntry fault None app))
      by (apply (reach_remove _ Yes); exact Hreach).
    destruct (reachable_invariant _ _ Hr) as (_ & Hw & _).
    rewrite removeEntry_success in Hw |- * by exact Hs.
    rewrite highlight_diary in Hw |- *. now apply synced.
Qed.

Lemma X8_green_iff_entry_witness :
  reachable withHello /\ selectable march1 /\
  succeeds None (Delete (toString march1)) (diary withHello) /\
  march1 ∈ highlighted (calendarWidget withHello) /\
  march1 ∉ highlighted (calendarWidget (removeEntry None None withHello)).
Proof.
  assert (Hd : selectable march1) by (split; [reflexivity | cbn; lia]).
  assert (Hs : succeeds None (Delete (toString march1)) (diary withHello))
    by reflexivity.
  assert (Hs0 : succeeds None (Insert (toString march1) "Hello") (diary (typeText "Hello" started)))
    by reflexivity.
  split; [exact reachable_withHello|]. split; [exact Hd|]. split; [exact Hs|]. split.
  - destruct (X8_green_iff_entry (typeText "Hello" started) None march1
                (reach_type _ _ _ (reachable_started _)) Hd) as (Hadd & _).
    apply (Hadd Hs0). exists (mkRow 1 "2024-03-01" "Hello"). split; [left | reflexivity].
  - destruct (X8_green_iff_entry withHello None march1 reachable_withHello Hd)
      as (_ & _ & Hrem).
    intros Hin. apply (Hrem Hs) in Hin. destruct Hin as (r & Hr & _). inversion Hr.
Defined.

(** X9: the refresh clears the calendar before it queries the table and
    does not look at whether the query ran.  When the query fails no day is
    green afterwards, whatever the table holds: after an [addEntry] whose
    insert succeeded and whose refresh query failed, the date has its entry
    and is not green. *)
Theorem X9_refresh_failure app msg fault :
  let d := selectedDate (calendarWidget app) in
  dateTextFormats (calendarWidget (highlightDaysWithEntries (Some msg) app)) = ∅ /\
  highlighted (calendarWidget (highlightDaysWithEntries (Some msg) app)) = ∅ /\
  (succeeds fault (Insert (toString d) (entryTextEdit app)) (diary app) ->
   hasEntry d (diary (addEntry fault (Some msg) app)) /\
   highlighted (calendarWidget (addEntry fault (Some msg) app)) = ∅).
Proof.
  intros d.
  assert (Hclear : forall x, highlighted
            (calendarWidget (highlightDaysWithEntries (Some msg) x)) = ∅).
  { intros x. rewrite highlight_unfold. cbn. unfold highlighted. cbn.
    rewrite map_filter_empty. apply dom_empty_L. }
  split; [now rewrite highlight_unfold|]. split; [apply Hclear|].
  intros Hs. split.
  - pose proof (succeeds_no_fault _ _ _ Hs) as ->.
    rewrite addEntry_diary. fold d. rewrite exec_insert by exact Hs.
    exists (mkRow (sequence (diary app) + 1) (toString d) (entryTextEdit app)).
    split; [|reflexivity]. cbn. apply elem_of_app. right. left.
  - rewrite addEntry_success by exact Hs. apply Hclear.
Qed.

Lemma X9_refresh_failure_witness :
  succeeds None (Insert (toString march1) "Hello") (diary (typeText "Hello" started)) /\
  hasEntry march1 (diary (addEntry None (Some "disk I/O error") (typeText "Hello" started))) /\
  highlighted
    (calendarWidget (addEntry None (Some "disk I/O error") (typeText "Hello" started))) = ∅.
Proof.
  assert (Hs : succeeds None (Insert (toString march1) "Hello")
                        (diary (typeText "Hello" started))) by reflexivity.
  split; [exact Hs|].
  exact (proj2 (proj2 (X9_refresh_failure (typeText "Hello" started)
                         "disk I/O error" None)) Hs).
Defined.

Section Twice.

Implicit Types (tbl : Table) (ds text : string).

Lemma update_update text ds tbl :
  (exec None (Update text ds) (exec None (Update text ds) tbl).1).1 =
  (exec None (Update text ds) tbl).1.
Proof.
  cbn. f_equal. rewrite <- list_fmap_compose.
  apply list_fmap_ext. intros i r _. cbn.
  destruct (decide (date r = ds)) as [E|N]; cbn.
  - now rewrite decide_True by exact E.
  - now rewrite decide_False by exact N.
Qed.

Lemma delete_delete ds tbl :
  (exec None (Delete ds) (exec None (Delete ds) tbl).1).1 =
  (exec None (Delete ds) tbl).1.
Proof. apply delete_nothing, matching_delete_same. Qed.

Lemma delete_insert ds text tbl :
  matching ds tbl = [] ->
  succeeds None (Insert ds text) tbl ->
  (exec None (Delete ds) (exec None (Insert ds text) tbl).1).1 =
  {| rows := rows tbl; sequence := sequence tbl + 1 |}.
Proof.
  intros Hm Hs. rewrite exec_insert by exact Hs. cbn. f_equal.
  rewrite filter_app, filter_cons, decide_False by (cbn; intros H; now apply H).
  rewrite filter_nil, app_nil_r.
  pose proof (delete_nothing ds tbl Hm) as E.
  apply (f_equal rows) in E. exact E.
Qed.

End Twice.

(** ** The text box *)

(** X10: when its query runs, [showEntry] puts the entry's text in the
    text box.  The box is empty afterwards in exactly three cases: the
    query failed, the date has no entry, or the entry's text is empty; the
    box cannot tell the three apart. *)
Theorem X10_showEntry_text app fault d :
  (fault = None -> forall t, get d (diary app) = Some t ->
     entryTextEdit (showEntry fault d app) = t) /\
  (entryTextEdit (showEntry fault d app) = "" <->
   fault <> None \/ get d (diary app) = None \/ get d (diary app) = Some "").
Proof.
  split.
  - intros -> t Hg. now rewrite showEntry_text, Hg.
  - destruct fault as [msg|].
    + split; [intros _; now left | reflexivity].
    + rewrite showEntry_text. destruct (get d (diary app)) as [t|]; cbn.
      * split; [intros ->; auto | intros [H|[H|[= ->]]]; congruence].
      * split; [auto | reflexivity].
Qed.

Lemma X10_showEntry_text_witness :
  get march1 (diary withTwo) = Some "Hello" /\
  entryTextEdit (showEntry None march1 withTwo) = "Hello" /\
  entryTextEdit (showEntry (Some "database is locked") march1 withTwo) = "".
Proof.
  assert (Hg : get march1 (diary withTwo) = Some "Hello") by reflexivity.
  split; [exact Hg|]. split.
  - exact (proj1 (X10_showEntry_text withTwo None march1) eq_refl "Hello" Hg).
  - apply (proj2 (X10_showEntry_text withTwo (Some "database is locked") march1)).
    left. discriminate.
Defined.

(** ** Handlers one after the other *)

(** X11: adding an entry on a date that has none and removing it again
    gives back the rows there were; only the rowid sequence has moved on by
    one, so the removed row's rowid is not handed out again. *)
Theorem X11_add_then_remove app refresh refresh' :
  let d := selectedDate (calendarWidget app) in
  let app' := removeEntry None refresh' (addEntry None refresh app) in
  ~ hasEntry d (diary app) ->
  succeeds None (Insert (toString d) (entryTextEdit app)) (diary app) ->
  rows (diary app') = rows (diary app) /\
  sequence (diary app') = sequence (diary app) + 1 /\
  get d (diary app') = None.
Proof.
  intros d app' Hno Hs. subst app'.
  rewrite removeEntry_diary, addEntry_selected, addEntry_diary. fold d.
  rewrite delete_insert; [|now apply no_entry_matching | exact Hs].
  split; [reflexivity|]. split; [reflexivity|].
  apply get_None. intros (r & Hr & E). apply Hno. exists r. auto.
Qed.

Lemma X11_add_then_remove_witness :
  ~ hasEntry march1 (diary (typeText "Hello" started)) /\
  succeeds None (Insert (toString march1) "Hello") (diary (typeText "Hello" started)) /\
  rows (diary (removeEntry None None (addEntry None None (typeText "Hello" started))))
    = [] /\
  sequence (diary (removeEntry None None (addEntry None None (typeText "Hello" started))))
    = 1.
Proof.
  assert (Hno : ~ hasEntry march1 (diary (typeText "Hello" started)))
    by (intros (r & Hr & _); inversion Hr).
  assert (Hs : succeeds None (Insert (toString march1) "Hello")
                        (diary (typeText "Hello" started))) by reflexivity.
  destruct (X11_add_then_remove (typeText "Hello" started) None None Hno Hs)
    as (Hrows & Hseq & _).
  split; [exact Hno|]. split; [exact Hs|]. split; [exact Hrows | exact Hseq].
Defined.

(** X12: pressing "Update Entry" twice, or removing twice, leaves the
    table the first press left. *)
Theorem X12_twice_is_once app refresh refresh' :
  diary (updateEntry None refresh' (updateEntry None refresh app)) =
    diary (updateEntry None refresh app) /\
  diary (removeEntry None refresh' (removeEntry None refresh app)) =
    diary (removeEntry None refresh app).
Proof.
  split.
  - rewrite (updateEntry_diary None refresh'), updateEntry_text, updateEntry_selected.
    rewrite updateEntry_diary. apply update_update.
  - rewrite (removeEntry_diary None refresh'), removeEntry_selected.
    rewrite removeEntry_diary. apply delete_delete.
Qed.

(** ** The date format *)

(** X13: a selectable date is written as ten characters, read back as the
    same date, and two selectable dates are never written alike; this is
    what lets [highlightDaysWithEntries] find the day [addEntry] wrote. *)
Theorem X13_date_format d d' :
  selectable d -> selectable d' ->
  fromString (toString d) = d /\
  String.length (toString d) = 10%nat /\
  (toString d = toString d' -> d = d').
Proof.
  intros Hd Hd'. split; [now apply fromString_toString|].
  split; [|now apply toString_inj].
  destruct Hd as [Hv [Hlo _]]. destruct d as [|y m dd]; [discriminate|].
  cbn in Hv, Hlo. cbn [toString]. rewrite Hv.
  destruct (Z.ltb_spec y 0); [lia|]. reflexivity.
Qed.

Lemma X13_date_format_witness :
  selectable (YMD 2024 2 29) /\ selectable march1 /\
  toString (YMD 2024 2 29) = "2024-02-29" /\
  fromString "2024-02-29" = YMD 2024 2 29.
Proof.
  assert (Hd : selectable (YMD 2024 2 29)) by (split; [reflexivity | cbn; lia]).
  assert (Hd' : selectable march1) by (split; [reflexivity | cbn; lia]).
  split; [exact Hd|]. split; [exact Hd'|]. split; [reflexivity|].
  exact (proj1 (X13_date_format (YMD 2024 2 29) march1 Hd Hd')).
Defined.

(** ** The log *)

(** X14: each of [addEntry], [updateEntry] and [removeEntry] writes one
    line to the log and keeps the lines before it: the success line with
    the date string when its statement ran, the error line with the text of
    [lastError] when it did not. *)
Theorem X14_one_log_line app fault refresh :
  let d := toString (selectedDate (calendarWidget app)) in
  let t := entryTextEdit app in
  debug (addEntry fault refresh app) =
    debug app ++
      [if decide (succeeds fault (Insert d t) (diary app))
       then ["Diary entry added successfully for"; d]
       else ["Error inserting diary entry:";
             lastError (exec fault (Insert d t) (diary app)).2]] /\
  debug (updateEntry fault refresh app) =
    debug app ++
      [if decide (succeeds fault (Update t d) (diary app))
       then ["Diary entry updated successfully for"; d]
       else ["Error updating diary entry:";
             lastError (exec fault (Update t d) (diary app)).2]] /\
  debug (removeEntry fault refresh app) =
    debug app ++
      [if decide (succeeds fault (Delete d) (diary app))
       then ["Diary entry removed successfully for"; d]
       else ["Error removing diary entry:";
             lastError (exec fault (Delete d) (diary app)).2]].
Proof.
  intros d t. split; [|split]; destruct (decide _) as [Hs|Hf].
  - rewrite addEntry_success by exact Hs.
    now rewrite (proj2 (proj2 (highlight_rest _ _))).
  - now rewrite addEntry_failure by exact Hf.
  - rewrite updateEntry_success by exact Hs.
    now rewrite (proj2 (proj2 (highlight_rest _ _))).
  - now rewrite updateEntry_failure by exact Hf.
  - rewrite removeEntry_success by exact Hs.
    now rewrite (proj2 (proj2 (highlight_rest _ _))).
  - now rewrite removeEntry_failure by exact Hf.
Qed.

(** ** A date that cannot be read back *)

(** X15: [highlightDaysWithEntries] hands whatever [fromString] returns to
    [setDateTextFormat], and a null date there clears every format.  So a
    row whose date string cannot be read wipes the marks of all the rows
    before it: the calendar ends as if the table began after that row. *)
Theorem X15_unreadable_date app l1 r l2 :
  rows (diary app) = l1 ++ r :: l2 ->
  isNull (fromString (Sql.date r)) = true ->
  calendarWidget (highlightDaysWithEntries None app) =
    calendarWidget
      (highlightDaysWithEntries None
         (setDiary {| rows := l2; sequence := sequence (diary app) |} app)) /\
  forall d, d ∈ highlighted (calendarWidget (highlightDaysWithEntries None app)) ->
            d ∈ fromString <$> (Sql.date <$> l2).
Proof.
  intros Hrows Hnull.
  assert (E : calendarWidget (highlightDaysWithEntries None app) =
    calendarWidget
      (highlightDaysWithEntries None
         (setDiary {| rows := l2; sequence := sequence (diary app) |} app))).
  { rewrite !highlight_unfold. cbn. rewrite Hrows. f_equal.
    rewrite fmap_app, fmap_cons, foldl_app. cbn [foldl]. now rewrite Hnull. }
  split; [exact E|]. intros d. rewrite E. intros Hin%highlighted_listed. exact Hin.
Qed.

Lemma X15_unreadable_date_witness :
  let tbl := {| rows := [mkRow 1 "2024-03-01" "a"; mkRow 2 "someday" "b";
                         mkRow 3 "2024-03-02" "c"];
                sequence := 3 |} in
  isNull (fromString "someday") = true /\
  hasEntry march1 tbl /\
  forall d, d ∈ highlighted (calendarWidget
                   (highlightDaysWithEntries None (setDiary tbl started))) ->
            d = march2.
Proof.
  cbn zeta. split; [reflexivity|]. split.
  - exists (mkRow 1 "2024-03-01" "a"). split; [left | reflexivity].
  - intros d Hd.
    apply (proj2 (X15_unreadable_date
             (setDiary {| rows := [mkRow 1 "2024-03-01" "a"; mkRow 2 "someday" "b";
                                   mkRow 3 "2024-03-02" "c"]; sequence := 3 |} started)
             [mkRow 1 "2024-03-01" "a"] (mkRow 2 "someday" "b")
             [mkRow 3 "2024-03-02" "c"] eq_refl eq_refl)) in Hd.
    cbn in Hd. apply list_elem_of_singleton in Hd. exact Hd.
Defined.

Section Marks.

Implicit Types (app : DiaryApp) (tbl : Table).

Lemma showEntry_calendar fault date app :
  calendarWidget (showEntry fault date app) = calendarWidget app.
Proof.
  unfold showEntry. destruct (exec _ _ _) as [tbl q]. now destruct (next q).
Qed.

(** Every green day is a listed date: the handlers refresh the calendar
    after each write that went through, and a refresh that fails leaves no
    green day at all. *)
Lemma reachable_marks_listed allowed app :
  reachableWhen allowed app ->
  forall d, d ∈ highlighted (calendarWidget app) ->
            d ∈ listDatesWithEntries (diary app).
Proof.
  induction 1 as [today refresh app Ht Hnew
                 | old today refresh app _ _ Ht Hnew
                 | date app _ IH Hd
                 | text app _ IH
                 | fault date app _ IH Hd
                 | reason app _ IH
                 | app _ IH
                 | fault refresh app _ IH _
                 | fault refresh app _ IH
                 | reply fault refresh app _ IH ]; intros d.
  - injection Hnew as <-. cbn [setVisible diary calendarWidget].
    rewrite highlight_diary. apply highlighted_listed.
  - injection Hnew as <-. cbn [setVisible diary calendarWidget].
    rewrite highlight_diary. apply highlighted_listed.
  - apply IH.
  - apply IH.
  - rewrite showEntry_calendar, showEntry_diary. apply IH.
  - destruct (toggleWindow_rest reason app) as [-> ->]. apply IH.
  - apply IH.
  - destruct (decide (succeeds fault
      (Insert (toString (selectedDate (calendarWidget app))) (entryTextEdit app))
      (diary app))) as [Hs|Hf].
    + rewrite addEntry_success by exact Hs. rewrite highlight_diary.
      apply highlighted_listed.
    + rewrite addEntry_failure by exact Hf. apply IH.
  - destruct (decide (succeeds fault
      (Update (entryTextEdit app) (toString (selectedDate (calendarWidget app))))
      (diary app))) as [Hs|Hf].
    + rewrite updateEntry_success by exact Hs. rewrite highlight_diary.
      apply highlighted_listed.
    + rewrite updateEntry_failure by exact Hf. apply IH.
  - destruct reply; [|apply IH]. cbn [confirmRemoveEntry].
    destruct (decide (succeeds fault
      (Delete (toString (selectedDate (calendarWidget app)))) (diary app))) as [Hs|Hf].
    + rewrite removeEntry_success by exact Hs. rewrite highlight_diary.
      apply highlighted_listed.
    + rewrite removeEntry_failure by exact Hf. apply IH.
Qed.

End Marks.

(** X16: in every reachable state a green day has an entry.  A write that
    goes through is always followed by a refresh, and a refresh whose query
    fails leaves no green day, so the calendar may miss an entry but never
    shows one that is not there. *)
Theorem X16_green_has_entry app d :
  reachable app ->
  d ∈ highlighted (calendarWidget app) ->
  hasEntry d (diary app) /\ get d (diary app) <> None.
Proof.
  intros Hreach Hin.
  destruct (reachable_invariant _ _ Hreach) as (_ & Hw & _).
  assert (Hhas : hasEntry d (diary app)).
  { apply listed_has_row; [exact Hw|]. now apply (reachable_marks_listed _ _ Hreach). }
  split; [exact Hhas|]. intros Hnone%get_None. contradiction.
Qed.

Lemma X16_green_has_entry_witness :
  reachable withTwo /\
  march1 ∈ highlighted (calendarWidget withTwo) /\
  get march1 (diary withTwo) <> None.
Proof.
  assert (Hin : march1 ∈ highlighted (calendarWidget withTwo)).
  { apply highlighted_spec. exists entryFormat. split; reflexivity. }
  split; [exact reachable_withTwo|]. split; [exact Hin|].
  exact (proj2 (X16_green_has_entry withTwo march1 reachable_withTwo Hin)).
Defined.

(** X17: [updateEntry] and [removeEntry] leave the text box, the selected
    date and the window as they are; in particular the text of an entry is
    still in the box after the entry was removed. *)
Theorem X17_text_box_kept app fault refresh reply :
  entryTextEdit (updateEntry fault refresh app) = entryTextEdit app /\
  selectedDate (calendarWidget (updateEntry fault refresh app)) =
    selectedDate (calendarWidget app) /\
  visible (updateEntry fault refresh app) = visible app /\
  entryTextEdit (confirmRemoveEntry reply fault refresh app) = entryTextEdit app /\
  selectedDate (calendarWidget (confirmRemoveEntry reply fault refresh app)) =
    selectedDate (calendarWidget app) /\
  visible (confirmRemoveEntry reply fault refresh app) = visible app.
Proof.
  split; [apply updateEntry_text|]. split; [apply updateEntry_selected|]. split.
  { unfold updateEntry. destruct (exec _ _ _) as [tbl q].
    destruct (active q); cbn [negb]; [|reflexivity].
    now rewrite (proj1 (proj2 (highlight_rest _ _))). }
  destruct reply; cbn [confirmRemoveEntry]; [|now repeat split].
  split; [apply removeEntry_text|]. split; [apply removeEntry_selected|].
  unfold removeEntry. destruct (exec _ _ _) as [tbl q].
  destruct (active q); cbn [negb]; [|reflexivity].
  now rewrite (proj1 (proj2 (highlight_rest _ _))).
Qed.

(** X18: a successful [removeEntry] takes out exactly the rows of the
    selected date: the rows left are the other rows in their order, and the
    number of rows drops by the number of rows the date had. *)
Theorem X18_remove_count app fault refresh :
  let d := selectedDate (calendarWidget app) in
  let app' := removeEntry fault refresh app in
  succeeds fault (Delete (toString d)) (diary app) ->
  rows (diary app') = filter (fun r => Sql.date r <> toString d) (rows (diary app)) /\
  (length (rows (diary app')) + length (matching (toString d) (diary app))
   = length (rows (diary app)))%nat.
Proof.
  intros d app' Hs. subst app'.
  pose proof (succeeds_no_fault _ _ _ Hs) as ->.
  rewrite removeEntry_diary. fold d. rewrite rows_delete.
  split; [reflexivity|]. unfold matching.
  induction (rows (diary app)) as [|r l IH]; [reflexivity|].
  rewrite !filter_cons.
  destruct (decide (Sql.date r <> toString d)) as [N|E].
  - rewrite decide_False by exact N. cbn [length]. lia.
  - rewrite decide_True by (destruct (decide (Sql.date r = toString d)); [assumption | contradiction]).
    cbn [length]. lia.
Qed.

Lemma X18_remove_count_witness :
  succeeds None (Delete (toString march1)) (diary withTwo) /\
  length (rows (diary withTwo)) = 2%nat /\
  length (matching (toString march1) (diary withTwo)) = 2%nat /\
  length (rows (diary (removeEntry None None withTwo))) = 0%nat.
Proof.
  assert (Hs : succeeds None (Delete (toString march1)) (diary withTwo)) by reflexivity.
  destruct (X18_remove_count withTwo None None Hs) as [Hrows _].
  split; [exact Hs|]. split; [reflexivity|]. split; [reflexivity|].
  rewrite Hrows. reflexivity.
Defined.
